(** * Session-gated admin API of the Next.js backend demo

    A shallow embedding of [lib/validation.ts], [lib/api-utils.ts] and the
    route handlers [app/api/admin/users/route.ts], [app/api/protected/route.ts]
    and [app/api/hello/route.ts], followed by the properties of the access
    control, validation and pagination policy.

    Layout: the embedding of the JavaScript data the handlers touch
    ([JS]), the repository's helper libraries ([Validation], [ApiUtils]),
    the persistence store ([Prisma]), the three route modules, and then the
    lemmas and theorems. *)

From Stdlib Require Import ZArith NArith List String Ascii Bool Lia.
From Stdlib Require Import DecimalString DecimalPos DecimalN DecimalZ.
Import ListNotations.
Open Scope Z_scope.
Set Warnings "-register-all".

(* ================================================================== *)
(** ** JavaScript data *)
(* ================================================================== *)

Module JS.

(** A JavaScript string is a sequence of UTF-16 code units. *)
Definition jsstring := list N.

(** String literals of the source, written as Rocq strings. *)
Definition lit (s : string) : jsstring :=
  map N_of_ascii (list_ascii_of_string s).
Arguments lit s%_string.

(** [a === b] on strings. *)
Fixpoint streq (a b : jsstring) : bool :=
  match a, b with
  | [], [] => true
  | x :: a', y :: b' => N.eqb x y && streq a' b'
  | _, _ => false
  end.

(** ECMAScript [WhiteSpace] and [LineTerminator] code points, the set
    stripped by [String.prototype.trim] and skipped by [parseInt]. *)
Definition isWhiteSpace (c : N) : bool :=
  ((9 <=? c) && (c <=? 13) || (c =? 32) || (c =? 160) || (c =? 5760)
   || (8192 <=? c) && (c <=? 8202) || (c =? 8232) || (c =? 8233)
   || (c =? 8239) || (c =? 8287) || (c =? 12288) || (c =? 65279))%N.

Fixpoint trimStart (s : jsstring) : jsstring :=
  match s with
  | [] => []
  | c :: r => if isWhiteSpace c then trimStart r else s
  end.

Definition trimEnd (s : jsstring) : jsstring := rev (trimStart (rev s)).

(** [s.trim()] *)
Definition trim (s : jsstring) : jsstring := trimEnd (trimStart s).

(** [s.replace(/[cls]/g, repl)] for a character class [cls]: the scan
    visits every code unit once and substitutes each match. *)
Fixpoint replaceAll (cls : N -> bool) (repl s : jsstring) : jsstring :=
  match s with
  | [] => []
  | c :: r => if cls c then repl ++ replaceAll cls repl r
              else c :: replaceAll cls repl r
  end.

(** A string between double quotes, as it appears inside a literal. *)
Definition quoted (s : jsstring) : jsstring := 34%N :: s ++ [34%N].

(** [parts.join(sep)] *)
Fixpoint join (sep : jsstring) (parts : list jsstring) : jsstring :=
  match parts with
  | [] => []
  | [p] => p
  | p :: rest => p ++ sep ++ join sep rest
  end.

(** JavaScript numbers reached by the handlers: integers (results of
    [parseInt], record counts, ceilings of their quotients), the two
    infinities, negative zero and NaN.  [Fin z] is the double of value
    [z].  Doubles hold every integer of magnitude below 2^53; beyond,
    [parseInt], [sub] and [mul] round their exact result to the nearest
    double and overflow to an infinity ([roundDouble]).  The counts of
    the store and [ceilDiv] are exact, which is what doubles give while
    the operands stay within [maxSafeInteger]. *)
Inductive Num := NaN | PInf | NInf | NegZero | Fin (z : Z).

Definition isNegative (x : Num) : bool :=
  match x with
  | NInf | NegZero => true
  | Fin z => z <? 0
  | _ => false
  end.

Definition isZero (x : Num) : bool :=
  match x with
  | NegZero => true
  | Fin z => z =? 0
  | _ => false
  end.

(** The integer a finite number denotes. *)
Definition toZ (x : Num) : Z :=
  match x with Fin z => z | _ => 0 end.

Definition signedZero (neg : bool) : Num := if neg then NegZero else Fin 0.
Definition signedInf (neg : bool) : Num := if neg then NInf else PInf.

(** [Number.MAX_SAFE_INTEGER] *)
Definition maxSafeInteger : Z := 2 ^ 53 - 1.

(** The double nearest to the integer [z]: [z] itself below 2^53 in
    magnitude; otherwise the magnitude is cut to its 53 leading bits,
    rounding to nearest with ties to the even significand, and a result
    of 2^1024 or more is an infinity. *)
Definition roundDouble (z : Z) : Num :=
  let a := Z.abs z in
  if a <? 2 ^ 53 then Fin z
  else
    let sh := Z.log2 a - 52 in
    let m := a / 2 ^ sh in
    let r := a mod 2 ^ sh in
    let half := 2 ^ (sh - 1) in
    let m' := if (half <? r) || ((r =? half) && Z.odd m) then m + 1
              else m in
    let v := m' * 2 ^ sh in
    if 2 ^ 1024 <=? v then signedInf (z <? 0)
    else Fin (if z <? 0 then - v else v).

(** [x - y] *)
Definition sub (x y : Num) : Num :=
  match x, y with
  | NaN, _ | _, NaN => NaN
  | PInf, PInf | NInf, NInf => NaN
  | PInf, _ | _, NInf => PInf
  | NInf, _ | _, PInf => NInf
  | NegZero, Fin 0 => NegZero
  | _, _ => roundDouble (toZ x - toZ y)
  end.

(** [x * y] *)
Definition mul (x y : Num) : Num :=
  let neg := xorb (isNegative x) (isNegative y) in
  match x, y with
  | NaN, _ | _, NaN => NaN
  | (PInf | NInf), _ => if isZero y then NaN else signedInf neg
  | _, (PInf | NInf) => if isZero x then NaN else signedInf neg
  | _, _ => if toZ x * toZ y =? 0 then signedZero neg
            else roundDouble (toZ x * toZ y)
  end.

(** [Math.ceil(x / y)].  For finite operands with [y] non-zero the
    quotient is the rational [x/y], whose ceiling is [- ((- x) / y)] with
    [Z.div] rounding down; a quotient in (-1, 0) rounds to negative zero.
    The rounding of the quotient to a double is left out: it cannot
    reach an integer the quotient is not, nor cross one, while [x] stays
    within [maxSafeInteger]. *)
Definition ceilDiv (x y : Num) : Num :=
  let neg := xorb (isNegative x) (isNegative y) in
  match x, y with
  | NaN, _ | _, NaN => NaN
  | (PInf | NInf), (PInf | NInf) => NaN
  | (PInf | NInf), _ => signedInf neg
  | _, (PInf | NInf) => signedZero neg
  | _, _ =>
      if isZero y then (if isZero x then NaN else signedInf neg)
      else let q := - ((- toZ x) / toZ y) in
           if q =? 0 then signedZero neg else Fin q
  end.


(** Value of a code unit as a digit in some radix up to 36. *)
Definition digitValue (c : N) : option Z :=
  if ((48 <=? c) && (c <=? 57))%N then Some (Z.of_N c - 48)
  else if ((97 <=? c) && (c <=? 122))%N then Some (Z.of_N c - 87)
  else if ((65 <=? c) && (c <=? 90))%N then Some (Z.of_N c - 55)
  else None.

Definition radixDigit (R : Z) (c : N) : option Z :=
  match digitValue c with
  | Some d => if d <? R then Some d else None
  | None => None
  end.

(** Longest prefix of radix-[R] digits, read as an integer; [acc] is
    [None] until the first digit has been seen. *)
Fixpoint parseDigits (R : Z) (s : jsstring) (acc : option Z) : option Z :=
  match s with
  | [] => acc
  | c :: r =>
      match radixDigit R c with
      | Some d =>
          parseDigits R r
            (Some (R * match acc with Some a => a | None => 0 end + d))
      | None => acc
      end
  end.

(** [parseInt(s)] with the radix argument omitted: leading white space is
    skipped, an optional sign is read, a [0x]/[0X] prefix selects radix 16,
    and the longest digit prefix is converted to the nearest double; no
    digit gives NaN. *)
Definition parseInt (s : jsstring) : Num :=
  let S0 := trimStart s in
  let '(neg, S1) :=
    match S0 with
    | c :: r => if (c =? 45)%N then (true, r)
                else if (c =? 43)%N then (false, r)
                else (false, S0)
    | [] => (false, [])
    end in
  let '(R, S2) :=
    match S1 with
    | 48%N :: x :: r =>
        if ((x =? 120) || (x =? 88))%N then (16, r) else (10, S1)
    | _ => (10, S1)
    end in
  match parseDigits R S2 None with
  | None => NaN
  | Some m => if m =? 0 then signedZero neg
              else roundDouble (if neg then - m else m)
  end.


(** JavaScript values: what [request.json()] yields, plus [undefined] and
    [Date] objects, which the handlers and the store produce. *)
Inductive Value :=
| VUndefined
| VNull
| VBool (b : bool)
| VNum (n : Num)
| VStr (s : jsstring)
| VDate (ms : Z)
| VArr (items : list Value)
| VObj (props : list (jsstring * Value)).

(** ToBoolean *)
Definition truthy (v : Value) : bool :=
  match v with
  | VUndefined | VNull => false
  | VBool b => b
  | VNum NaN => false
  | VNum n => negb (isZero n)
  | VStr [] => false
  | VStr _ => true
  | VDate _ | VArr _ | VObj _ => true
  end.

(** [s || dflt] for a string-or-null [s]. *)
Definition orElse (s : option jsstring) (dflt : jsstring) : jsstring :=
  match s with
  | Some (c :: r) => c :: r
  | _ => dflt
  end.

(** Own-property read [o.k] on an object literal; absent keys read as
    [undefined]. *)
Fixpoint getProp (props : list (jsstring * Value)) (k : jsstring) : Value :=
  match props with
  | [] => VUndefined
  | (k', v) :: rest => if streq k' k then v else getProp rest k
  end.

Definition hasProp (props : list (jsstring * Value)) (k : jsstring) : bool :=
  existsb (fun kv => streq (fst kv) k) props.

(** [Object.keys(o)] *)
Definition keys (props : list (jsstring * Value)) : list jsstring :=
  map fst props.

(** Thrown values: [Error] objects with a [message] and, for errors of the
    persistence client, a [code]. *)
Record Exn := mkExn {
  exn_name : jsstring;
  exn_code : option jsstring;
  exn_message : jsstring
}.

(** [new Error(message)] *)
Definition Error (message : jsstring) : Exn :=
  mkExn (lit "Error") None message.

(** [error.code === c] *)
Definition codeIs (e : Exn) (c : jsstring) : bool :=
  match exn_code e with
  | Some c' => streq c' c
  | None => false
  end.

(** How a computation ends: normally with a value, or by [throw]. *)
Inductive Completion (A : Type) :=
| Normal (a : A)
| Throw (e : Exn).
Arguments Normal {A} a.
Arguments Throw {A} e.

(** [const { k } = body]: reading a property of [null] or [undefined]
    throws a [TypeError]; primitives and arrays have no such own property. *)
Definition destructure (body : Value) (k : jsstring) : Completion Value :=
  match body with
  | VUndefined | VNull =>
      Throw (mkExn (lit "TypeError") None
               (lit "Cannot destructure property of null or undefined"))
  | VObj props => Normal (getProp props k)
  | _ => Normal VUndefined
  end.

(** Computations over a server state [S] that may throw. *)
Definition M (S A : Type) : Type := S -> Completion A * S.

Definition ret {S A} (a : A) : M S A := fun w => (Normal a, w).

Definition throw {S A} (e : Exn) : M S A := fun w => (Throw e, w).

Definition bind {S A B} (m : M S A) (k : A -> M S B) : M S B :=
  fun w => match m w with
           | (Normal a, w') => k a w'
           | (Throw e, w') => (Throw e, w')
           end.

(** [try { body } catch (error) { handler }] *)
Definition tryCatch {S A} (body : M S A) (handler : Exn -> M S A) : M S A :=
  fun w => match body w with
           | (Normal a, w') => (Normal a, w')
           | (Throw e, w') => handler e w'
           end.

(** [await Promise.all([a, b])]: both calls are started, in order; the
    result is the pair of their values, or the rejection of the first one
    that failed. *)
Definition promiseAll {S A B} (a : M S A) (b : M S B) : M S (A * B) :=
  fun w => let '(ra, w1) := a w in
           let '(rb, w2) := b w1 in
           match ra, rb with
           | Normal x, Normal y => (Normal (x, y), w2)
           | Throw e, _ => (Throw e, w2)
           | Normal _, Throw e => (Throw e, w2)
           end.

(** A pure computation that may throw, run inside [M]. *)
Definition lift {S A} (c : Completion A) : M S A := fun w => (c, w).

End JS.

Export JS.

Declare Scope js_scope.
Delimit Scope js_scope with js.
Notation "x <- c ;; k" := (bind c (fun x => k))
  (at level 61, c at next level, right associativity) : js_scope.
Notation "c ;;; k" := (bind c (fun _ => k))
  (at level 61, right associativity) : js_scope.
Open Scope js_scope.

(* ================================================================== *)
(** ** Regular expressions over code units *)
(* ================================================================== *)

Module Regex.

(** The patterns the sources use: character classes, concatenation,
    alternation and repetition.  Without the [u] flag a pattern reads the
    subject one code unit at a time. *)
Inductive Regex :=
| Void
| Eps
| Class (cls : N -> bool)
| Seq (r1 r2 : Regex)
| Alt (r1 r2 : Regex)
| Star (r : Regex).

(** A literal character. *)
Definition Char (c : N) : Regex := Class (N.eqb c).

(** [r+] *)
Definition Plus (r : Regex) : Regex := Seq r (Star r).

(** Whether [r] matches the empty string. *)
Fixpoint nullable (r : Regex) : bool :=
  match r with
  | Void => false
  | Eps => true
  | Class _ => false
  | Seq r1 r2 => nullable r1 && nullable r2
  | Alt r1 r2 => nullable r1 || nullable r2
  | Star _ => true
  end.

(** What is left of [r] once the code unit [c] has been read. *)
Fixpoint deriv (c : N) (r : Regex) : Regex :=
  match r with
  | Void => Void
  | Eps => Void
  | Class cls => if cls c then Eps else Void
  | Seq r1 r2 =>
      if nullable r1 then Alt (Seq (deriv c r1) r2) (deriv c r2)
      else Seq (deriv c r1) r2
  | Alt r1 r2 => Alt (deriv c r1) (deriv c r2)
  | Star r1 => Seq (deriv c r1) (Star r1)
  end.

(** [/^r$/.test(s)]: the whole subject must match. *)
Fixpoint test (r : Regex) (s : jsstring) : bool :=
  match s with
  | [] => nullable r
  | c :: s' => test (deriv c r) s'
  end.

(** The strings a pattern denotes. *)
Inductive Accepts : Regex -> jsstring -> Prop :=
| AcceptsEps : Accepts Eps []
| AcceptsClass cls c : cls c = true -> Accepts (Class cls) [c]
| AcceptsSeq r1 r2 s1 s2 :
    Accepts r1 s1 -> Accepts r2 s2 -> Accepts (Seq r1 r2) (s1 ++ s2)
| AcceptsAltL r1 r2 s : Accepts r1 s -> Accepts (Alt r1 r2) s
| AcceptsAltR r1 r2 s : Accepts r2 s -> Accepts (Alt r1 r2) s
| AcceptsStarNil r : Accepts (Star r) []
| AcceptsStarApp r s1 s2 :
    Accepts r s1 -> Accepts (Star r) s2 -> Accepts (Star r) (s1 ++ s2).

End Regex.

(* ================================================================== *)
(** ** lib/validation.ts *)
(* ================================================================== *)

Module Validation.

(** The loop test of [validateRequired]:
    [!value || (typeof value === 'string' && value.trim() === '')]. *)
Definition isMissing (value : Value) : bool :=
  negb (truthy value)
  || match value with
     | VStr s => streq (trim s) []
     | _ => false
     end.

(** The [for ... of Object.entries(fields)] loop: collects, in iteration
    order, the key of every entry whose value fails the test. *)
Fixpoint collectMissing (entries : list (jsstring * Value)) : list jsstring :=
  match entries with
  | [] => []
  | (key, value) :: rest =>
      if isMissing value then key :: collectMissing rest
      else collectMissing rest
  end.

Definition validateRequired (fields : list (jsstring * Value))
  : Completion unit :=
  let missing := collectMissing fields in
  if (0 <? Z.of_nat (List.length missing)) then
    Throw (Error (lit "Missing required fields: " ++ join (lit ", ") missing))
  else Normal tt.

Definition isAngle (c : N) : bool := ((c =? 60) || (c =? 62))%N.

(** [input.trim().replace(/[<>]/g, '')] *)
Definition sanitizeString (input : jsstring) : jsstring :=
  replaceAll isAngle [] (trim input).

(** The class [[^\s@]]. *)
Definition notSpaceNorAt (c : N) : bool :=
  negb (isWhiteSpace c || (c =? 64)%N).

(** [/^[^\s@]+@[^\s@]+\.[^\s@]+$/] *)
Definition emailRegex : Regex.Regex :=
  Regex.Seq (Regex.Plus (Regex.Class notSpaceNorAt))
    (Regex.Seq (Regex.Char 64)
       (Regex.Seq (Regex.Plus (Regex.Class notSpaceNorAt))
          (Regex.Seq (Regex.Char 46)
             (Regex.Plus (Regex.Class notSpaceNorAt))))).

Definition isValidEmail (email : jsstring) : bool :=
  Regex.test emailRegex email.

Definition isValidPassword (password : jsstring) : bool :=
  6 <=? Z.of_nat (List.length password).

Definition validateEmail (email : jsstring) : Completion unit :=
  if negb (isValidEmail email) then
    Throw (Error (lit "Invalid email format"))
  else Normal tt.

Definition validatePassword (password : jsstring) : Completion unit :=
  if negb (isValidPassword password) then
    Throw (Error (lit "Password must be at least 6 characters long"))
  else Normal tt.

End Validation.

(* ================================================================== *)
(** ** lib/api-utils.ts *)
(* ================================================================== *)

Module ApiUtils.

(** What [NextResponse.json(body, { status })] is given; [status] is 200
    when the init argument is omitted. *)
Record Response := mkResponse {
  status : Z;
  body : Value
}.

Definition NextResponse_json (body : Value) (status : option Z) : Response :=
  mkResponse (match status with Some s => s | None => 200 end) body.

(** Optional parameters with defaults are passed as [None] when omitted. *)
Definition dflt {A} (o : option A) (d : A) : A :=
  match o with Some a => a | None => d end.

Definition successResponse (data : Value) (status : option Z) : Response :=
  NextResponse_json
    (VObj [(lit "success", VBool true); (lit "data", data)])
    (Some (dflt status 200)).

Definition errorResponse (message : jsstring) (status : option Z) : Response :=
  NextResponse_json
    (VObj [(lit "success", VBool false); (lit "error", VStr message)])
    (Some (dflt status 400)).

Definition unauthorizedResponse : Response :=
  NextResponse_json
    (VObj [(lit "success", VBool false);
           (lit "error", VStr (lit "Unauthorized - Please sign in"))])
    (Some 401).

Definition forbiddenResponse (message : option jsstring) : Response :=
  NextResponse_json
    (VObj [(lit "success", VBool false);
           (lit "error", VStr (dflt message (lit "Forbidden")))])
    (Some 403).

Definition notFoundResponse (resource : option jsstring) : Response :=
  NextResponse_json
    (VObj [(lit "success", VBool false);
           (lit "error",
            VStr (dflt resource (lit "Resource") ++ lit " not found"))])
    (Some 404).

Definition serverErrorResponse (message : option jsstring) : Response :=
  NextResponse_json
    (VObj [(lit "success", VBool false);
           (lit "error", VStr (dflt message (lit "Internal server error")))])
    (Some 500).

End ApiUtils.

Export ApiUtils.

(* ================================================================== *)
(** ** The session handed out by the auth library *)
(* ================================================================== *)

Module Auth.

(** [session.user], exposed to handlers as [{ id, email, name, role }]. *)
Record SessionUser := mkSessionUser {
  su_id : jsstring;
  su_email : jsstring;
  su_name : jsstring;
  su_role : jsstring
}.

Record Session := mkSession { user : SessionUser }.

Definition userValue (u : SessionUser) : Value :=
  VObj [(lit "id", VStr (su_id u)); (lit "email", VStr (su_email u));
        (lit "name", VStr (su_name u)); (lit "role", VStr (su_role u))].

End Auth.

Export Auth.

(* ================================================================== *)
(** ** The session helpers of lib *)
(* ================================================================== *)

Module AuthHelpers.

(** Each helper starts with [await getCurrentSession()], that is
    [getServerSession(authOptions)]; the resolved session is their
    argument [session]. *)

(** [!!session] *)
Definition isAuthenticated (session : option Session) : bool :=
  match session with
  | Some _ => true
  | None => false
  end.

(** [session?.user || null] *)
Definition getAuthenticatedUser (session : option Session)
  : option SessionUser :=
  match session with
  | Some s => Some (user s)
  | None => None
  end.

(** [session?.user?.role === role] *)
Definition hasRole (session : option Session) (role : jsstring) : bool :=
  match session with
  | Some s => streq (su_role (user s)) role
  | None => false
  end.

Definition isAdmin (session : option Session) : bool :=
  hasRole session (lit "admin").

Definition requireAuth (session : option Session) : Completion Session :=
  match session with
  | None => Throw (Error (lit "Unauthorized"))
  | Some s => Normal s
  end.

Definition requireRole (session : option Session) (role : jsstring)
  : Completion Session :=
  match requireAuth session with
  | Throw e => Throw e
  | Normal s =>
      if negb (streq (su_role (user s)) role) then
        Throw (Error (lit "Forbidden"))
      else Normal s
  end.

Definition requireAdmin (session : option Session) : Completion Session :=
  requireRole session (lit "admin").

End AuthHelpers.

(* ================================================================== *)
(** ** The persistence store behind [prisma.user] *)
(* ================================================================== *)

Module Prisma.

(** Modelled from the spec: the [User] record of the data model
    (identifier, display name, email, password credential, role, creation
    and last-update timestamps) with its associated sessions; the schema
    file is not part of the sources.  Timestamps are milliseconds. *)
Record User := mkUser {
  id : jsstring;
  name : jsstring;
  email : jsstring;
  password : jsstring;
  role : jsstring;
  createdAt : Z;
  updatedAt : Z;
  sessions : list jsstring
}.

(** The fields a [select] argument can name. *)
Inductive Field :=
| f_id | f_name | f_email | f_password | f_role
| f_createdAt | f_updatedAt | f_count_sessions.

Definition fieldName (f : Field) : jsstring :=
  match f with
  | f_id => lit "id"
  | f_name => lit "name"
  | f_email => lit "email"
  | f_password => lit "password"
  | f_role => lit "role"
  | f_createdAt => lit "createdAt"
  | f_updatedAt => lit "updatedAt"
  | f_count_sessions => lit "_count"
  end.

Definition fieldValue (u : User) (f : Field) : Value :=
  match f with
  | f_id => VStr (id u)
  | f_name => VStr (name u)
  | f_email => VStr (email u)
  | f_password => VStr (password u)
  | f_role => VStr (role u)
  | f_createdAt => VDate (createdAt u)
  | f_updatedAt => VDate (updatedAt u)
  | f_count_sessions =>
      VObj [(lit "sessions",
             VNum (Fin (Z.of_nat (List.length (sessions u)))))]
  end.

(** The object returned for a record under [select]: exactly the
    selected fields. *)
Definition project (select : list Field) (u : User) : Value :=
  VObj (map (fun f => (fieldName f, fieldValue u f)) select).

(** The [where] arguments the handlers build. *)
Inductive StringFilter :=
| ContainsInsensitive (needle : jsstring).

Inductive Condition :=
| OnName (f : StringFilter)
| OnEmail (f : StringFilter).

Inductive Where :=
| WEmpty
| WOr (alternatives : list Condition).

Definition lower (c : N) : N :=
  if ((65 <=? c) && (c <=? 90))%N then (c + 32)%N else c.

Fixpoint isPrefixOf (p s : jsstring) : bool :=
  match p, s with
  | [], _ => true
  | x :: p', y :: s' => N.eqb x y && isPrefixOf p' s'
  | _ :: _, [] => false
  end.

Fixpoint isInfixOf (p s : jsstring) : bool :=
  isPrefixOf p s
  || match s with
     | [] => false
     | _ :: s' => isInfixOf p s'
     end.

(** Modelled from the spec: [search] matches when it is a
    case-insensitive substring; case folding is on the ASCII letters. *)
Definition holds (f : StringFilter) (s : jsstring) : bool :=
  match f with
  | ContainsInsensitive needle => isInfixOf (map lower needle) (map lower s)
  end.

Definition satisfies (u : User) (c : Condition) : bool :=
  match c with
  | OnName f => holds f (name u)
  | OnEmail f => holds f (email u)
  end.

Definition matches (w : Where) (u : User) : bool :=
  match w with
  | WEmpty => true
  | WOr alternatives => existsb (satisfies u) alternatives
  end.

(** [orderBy: { createdAt: 'desc' }] *)
Fixpoint insertDesc (u : User) (l : list User) : list User :=
  match l with
  | [] => [u]
  | v :: r => if createdAt v <? createdAt u then u :: l
              else v :: insertDesc u r
  end.

Definition orderByCreatedAtDesc (l : list User) : list User :=
  fold_right insertDesc [] l.

(** Calls issued to the store, in order. *)
Inductive Query :=
| QFindMany (w : Where) (skip take : Num)
| QCount (w : Where)
| QUpdate (whereId dataRole : Value)
| QDelete (whereId : jsstring).

(** The server state a handler runs against: the stored records, a
    failure of the store itself (while [fault] is set every call is
    rejected with it), the clock, the calls issued so far and the server
    console. *)
Record World := mkWorld {
  db : list User;
  fault : option Exn;
  clock : Z;
  queries : list Query;
  console : list (jsstring * Exn)
}.

Definition setDb (w : World) (d : list User) : World :=
  mkWorld d (fault w) (clock w) (queries w) (console w).

Definition issue (q : Query) : M World unit :=
  fun w => (Normal tt,
            mkWorld (db w) (fault w) (clock w) (queries w ++ [q]) (console w)).

Definition checkFault : M World unit :=
  fun w => match fault w with
           | Some e => (Throw e, w)
           | None => (Normal tt, w)
           end.

Definition validationError (argument : jsstring) : Exn :=
  mkExn (lit "PrismaClientValidationError") None
        (lit "Invalid value for argument " ++ argument).

(** The store's record-not-found signal. *)
Definition recordNotFound : Exn :=
  mkExn (lit "PrismaClientKnownRequestError") (Some (lit "P2025"))
        (lit "An operation failed because it depends on one or more records that were required but not found.").

(** [skip] must be a non-negative integer. *)
Definition asSkip (n : Num) : option nat :=
  match n with
  | Fin z => if 0 <=? z then Some (Z.to_nat z) else None
  | NegZero => Some 0%nat
  | _ => None
  end.

(** [take] must be an integer. *)
Definition asTake (n : Num) : option Z :=
  match n with
  | Fin z => Some z
  | NegZero => Some 0
  | _ => None
  end.

(** Modelled from the spec: the ordered, filtered rows sliced
    [[skip, skip + take)].  The spec describes a non-negative [take]; for
    a negative one the client pages backwards from the end of the
    ordering. *)
Definition window (skip : nat) (take : Z) (rows : list User) : list User :=
  if 0 <=? take then firstn (Z.to_nat take) (skipn skip rows)
  else rev (firstn (Z.to_nat (- take)) (skipn skip (rev rows))).

Definition rowsFor (w : Where) (d : list User) : list User :=
  orderByCreatedAtDesc (filter (matches w) d).

(** Modelled from the spec: [prisma.user.findMany({ where, skip, take,
    select, orderBy })], the filtered set ordered by creation timestamp
    descending and sliced; the client library is not part of the
    sources.  Arguments are checked before the store is reached.  A
    connector that does not take [mode: 'insensitive'] (SQLite) rejects
    the call when [where] is a search; for such a call the store is one
    whose [fault] is set. *)
Definition findMany (w : Where) (skip take : Num) (select : list Field)
  : M World (list Value) :=
  issue (QFindMany w skip take) ;;;
  match asSkip skip, asTake take with
  | None, _ => throw (validationError (lit "skip"))
  | _, None => throw (validationError (lit "take"))
  | Some s, Some t =>
      checkFault ;;;
      fun world =>
        (Normal (map (project select) (window s t (rowsFor w (db world)))),
         world)
  end.

(** Modelled from the spec: [prisma.user.count({ where })], the size of
    the full filtered set. *)
Definition count (w : Where) : M World Num :=
  issue (QCount w) ;;;
  checkFault ;;;
  fun world =>
    (Normal (Fin (Z.of_nat (List.length (filter (matches w) (db world))))),
     world).

Definition findById (uid : jsstring) (d : list User) : option User :=
  find (fun u => streq (id u) uid) d.

Fixpoint replaceById (uid : jsstring) (u' : User) (d : list User)
  : list User :=
  match d with
  | [] => []
  | u :: r => if streq (id u) uid then u' :: r
              else u :: replaceById uid u' r
  end.

Fixpoint removeById (uid : jsstring) (d : list User) : list User :=
  match d with
  | [] => []
  | u :: r => if streq (id u) uid then r else u :: removeById uid r
  end.

(** Modelled from the spec: [prisma.user.update({ where: { id },
    data: { role }, select })].  Both arguments must be strings; a
    missing record is signalled with [recordNotFound]; the record keeps
    its other fields and its last-update timestamp is set. *)
Definition update (whereId dataRole : Value) (select : list Field)
  : M World Value :=
  issue (QUpdate whereId dataRole) ;;;
  match whereId, dataRole with
  | VStr uid, VStr r =>
      checkFault ;;;
      fun world =>
        match findById uid (db world) with
        | None => (Throw recordNotFound, world)
        | Some u =>
            let u' := mkUser (id u) (name u) (email u) (password u) r
                             (createdAt u) (clock world) (sessions u) in
            (Normal (project select u'),
             setDb world (replaceById uid u' (db world)))
        end
  | VStr _, _ => throw (validationError (lit "data.role"))
  | _, _ => throw (validationError (lit "where.id"))
  end.

(** Modelled from the spec: [prisma.user.delete({ where: { id } })]; a
    missing record is signalled with [recordNotFound]. *)
Definition delete (whereId : jsstring) : M World unit :=
  issue (QDelete whereId) ;;;
  checkFault ;;;
  fun world =>
    match findById whereId (db world) with
    | None => (Throw recordNotFound, world)
    | Some _ => (Normal tt, setDb world (removeById whereId (db world)))
    end.

End Prisma.

Export Prisma.

(* ================================================================== *)
(** ** Requests and the server console *)
(* ================================================================== *)

Module Http.

(** A request: the decoded query parameters of its URL, in order, and
    its body as parsed JSON ([None] when the body is not valid JSON). *)
Record Request := mkRequest {
  searchParams : list (jsstring * jsstring);
  json : option Value
}.

(** [searchParams.get(name)]: the first value, or [null]. *)
Fixpoint get (params : list (jsstring * jsstring)) (name : jsstring)
  : option jsstring :=
  match params with
  | [] => None
  | (k, v) :: rest => if streq k name then Some v else get rest name
  end.

(** [await request.json()] *)
Definition request_json (request : Request) : Completion Value :=
  match json request with
  | Some v => Normal v
  | None => Throw (mkExn (lit "SyntaxError") None
                     (lit "Unexpected token in JSON"))
  end.

(** [console.error(label, error)] *)
Definition console_error (label : jsstring) (error : Exn) : M World unit :=
  fun w => (Normal tt,
            mkWorld (db w) (fault w) (clock w) (queries w)
                    (console w ++ [(label, error)])).

(** [!s] for a string-or-null. *)
Definition absent (s : option jsstring) : bool :=
  match s with
  | Some (_ :: _) => false
  | _ => true
  end.

(** SameValueZero, the comparison of [Array.prototype.includes]; objects
    compare by identity, so a parsed object never equals a literal. *)
Definition sameValueZero (a b : Value) : bool :=
  match a, b with
  | VUndefined, VUndefined | VNull, VNull => true
  | VBool x, VBool y => Bool.eqb x y
  | VStr x, VStr y => streq x y
  | VNum x, VNum y =>
      match x, y with
      | NaN, NaN | PInf, PInf | NInf, NInf => true
      | (NegZero | Fin _), (NegZero | Fin _) => toZ x =? toZ y
      | _, _ => false
      end
  | _, _ => false
  end.

Definition includes (items : list Value) (v : Value) : bool :=
  existsb (fun item => sameValueZero item v) items.

End Http.

Export Http.

(* ================================================================== *)
(** ** app/api/admin/users/route.ts *)
(* ================================================================== *)

Module AdminUsers.

(** The [select] of the listing: no [password]. *)
Definition listSelect : list Field :=
  [f_id; f_name; f_email; f_role; f_createdAt; f_updatedAt;
   f_count_sessions].

Definition updateSelect : list Field := [f_id; f_name; f_email; f_role].

Definition isAdmin (session : Session) : bool :=
  streq (su_role (user session)) (lit "admin").

(** The locals of [GET], as functions of the request. *)
Definition pageOf (request : Request) : Num :=
  parseInt (orElse (get (searchParams request) (lit "page")) (lit "1")).

Definition limitOf (request : Request) : Num :=
  parseInt (orElse (get (searchParams request) (lit "limit")) (lit "10")).

Definition searchOf (request : Request) : jsstring :=
  orElse (get (searchParams request) (lit "search")) [].

Definition skipOf (request : Request) : Num :=
  mul (sub (pageOf request) (Fin 1)) (limitOf request).

Definition whereFor (search : jsstring) : Where :=
  if truthy (VStr search) then
    WOr [OnName (ContainsInsensitive search);
         OnEmail (ContainsInsensitive search)]
  else WEmpty.

(** [GET /api/admin/users]; [session] is what [getServerSession] resolved. *)
Definition GET (session : option Session) (request : Request)
  : M World Response :=
  match session with
  | None => ret unauthorizedResponse
  | Some session =>
      if negb (isAdmin session) then
        ret (forbiddenResponse (Some (lit "Admin access required")))
      else
        tryCatch
          (let page := pageOf request in
           let limit := limitOf request in
           let search := searchOf request in
           let skip := skipOf request in
           let where_ := whereFor search in
           result <- promiseAll (findMany where_ skip limit listSelect)
                                (count where_) ;;
           let '(users, total) := result in
           ret (successResponse
                  (VObj [(lit "users", VArr users);
                         (lit "pagination",
                          VObj [(lit "page", VNum page);
                                (lit "limit", VNum limit);
                                (lit "total", VNum total);
                                (lit "totalPages",
                                 VNum (ceilDiv total limit))])])
                  None))
          (fun error =>
             console_error (lit "Error fetching users:") error ;;;
             ret (errorResponse (lit "Failed to fetch users") (Some 500)))
  end.

(** [PATCH /api/admin/users] *)
Definition PATCH (session : option Session) (request : Request)
  : M World Response :=
  match session with
  | None => ret unauthorizedResponse
  | Some session =>
      if negb (isAdmin session) then
        ret (forbiddenResponse (Some (lit "Admin access required")))
      else
        tryCatch
          (body <- lift (request_json request) ;;
           userId <- lift (destructure body (lit "userId")) ;;
           role <- lift (destructure body (lit "role")) ;;
           lift (Validation.validateRequired
                   [(lit "userId", userId); (lit "role", role)]) ;;;
           if negb (includes [VStr (lit "user"); VStr (lit "admin")] role)
           then
             ret (errorResponse
                    (lit "Invalid role. Must be " ++ quoted (lit "user")
                     ++ lit " or " ++ quoted (lit "admin"))
                    (Some 400))
           else
             user <- update userId role updateSelect ;;
             ret (successResponse
                    (VObj [(lit "message",
                            VStr (lit "User role updated successfully"));
                           (lit "user", user)])
                    None))
          (fun error =>
             console_error (lit "Error updating user:") error ;;;
             if codeIs error (lit "P2025") then
               ret (errorResponse (lit "User not found") (Some 404))
             else
               ret (errorResponse (lit "Failed to update user") (Some 500)))
  end.

(** [DELETE /api/admin/users] *)
Definition DELETE (session : option Session) (request : Request)
  : M World Response :=
  match session with
  | None => ret unauthorizedResponse
  | Some session =>
      if negb (isAdmin session) then
        ret (forbiddenResponse (Some (lit "Admin access required")))
      else
        tryCatch
          (let userId := get (searchParams request) (lit "id") in
           if absent userId then
             ret (errorResponse (lit "User ID is required") (Some 400))
           else
             let userId := orElse userId [] in
             if streq userId (su_id (user session)) then
               ret (errorResponse (lit "Cannot delete your own account")
                                  (Some 400))
             else
               delete userId ;;;
               ret (successResponse
                      (VObj [(lit "message",
                              VStr (lit "User deleted successfully"))])
                      None))
          (fun error =>
             console_error (lit "Error deleting user:") error ;;;
             if codeIs error (lit "P2025") then
               ret (errorResponse (lit "User not found") (Some 404))
             else
               ret (errorResponse (lit "Failed to delete user") (Some 500)))
  end.

End AdminUsers.

(* ================================================================== *)
(** ** app/api/protected/route.ts *)
(* ================================================================== *)

Module Protected.

(** [GET /api/protected]; [now] is [new Date().toISOString()]. *)
Definition GET (session : option Session) (now : jsstring) : Response :=
  match session with
  | None =>
      NextResponse_json
        (VObj [(lit "error", VStr (lit "Unauthorized - Please sign in"))])
        (Some 401)
  | Some session =>
      NextResponse_json
        (VObj [(lit "message", VStr (lit "This is protected data"));
               (lit "user", userValue (user session));
               (lit "accessTime", VStr now)])
        None
  end.

End Protected.

(* ================================================================== *)
(** ** app/api/hello/route.ts *)
(* ================================================================== *)

Module Hello.

(** [GET /api/hello] *)
Definition GET (now : jsstring) : Response :=
  NextResponse_json
    (VObj [(lit "message", VStr (lit "Hello from Next.js API!"));
           (lit "timestamp", VStr now);
           (lit "status", VStr (lit "success"))])
    None.

(** [POST /api/hello] *)
Definition POST (request : Request) : Response :=
  match request_json request with
  | Normal body =>
      NextResponse_json
        (VObj [(lit "message", VStr (lit "Data received successfully"));
               (lit "data", body);
               (lit "status", VStr (lit "success"))])
        None
  | Throw error =>
      NextResponse_json (VObj [(lit "error", VStr (lit "Invalid JSON"))])
                        (Some 400)
  end.

End Hello.

(* ================================================================== *)
(** ** The API tester page *)
(* ================================================================== *)

Module ApiTester.

Record FieldSpec := mkFieldSpec {
  fs_name : jsstring;
  fs_type : jsstring;
  fs_required : bool
}.

(** [interface ApiEndpoint]; optional members are [None] when omitted. *)
Record ApiEndpoint := mkApiEndpoint {
  method : jsstring;
  path : jsstring;
  description : jsstring;
  requiresAuth : bool;
  requiresAdmin : option bool;
  params : option (list FieldSpec);
  bodyFields : option (list FieldSpec)
}.

Definition API_ENDPOINTS : list ApiEndpoint :=
  [ mkApiEndpoint (lit "GET") (lit "/api/hello")
      (lit "Public API test endpoint") false None None None;
    mkApiEndpoint (lit "POST") (lit "/api/hello")
      (lit "Public API with POST data") false None None
      (Some [mkFieldSpec (lit "message") (lit "string") false]);
    mkApiEndpoint (lit "GET") (lit "/api/protected")
      (lit "Protected endpoint (requires authentication)") true None None
      None;
    mkApiEndpoint (lit "POST") (lit "/api/auth/register")
      (lit "Register new user") false None None
      (Some [mkFieldSpec (lit "name") (lit "string") true;
             mkFieldSpec (lit "email") (lit "string") true;
             mkFieldSpec (lit "password") (lit "string") true]);
    mkApiEndpoint (lit "GET") (lit "/api/users")
      (lit "List all users") true None None None;
    mkApiEndpoint (lit "POST") (lit "/api/users")
      (lit "Create new user") true None None
      (Some [mkFieldSpec (lit "name") (lit "string") true;
             mkFieldSpec (lit "email") (lit "string") true]);
    mkApiEndpoint (lit "GET") (lit "/api/admin/users")
      (lit "List users with pagination (Admin only)") true (Some true)
      (Some [mkFieldSpec (lit "page") (lit "number") false;
             mkFieldSpec (lit "limit") (lit "number") false;
             mkFieldSpec (lit "search") (lit "string") false])
      None;
    mkApiEndpoint (lit "PATCH") (lit "/api/admin/users")
      (lit "Update user role (Admin only)") true (Some true) None
      (Some [mkFieldSpec (lit "userId") (lit "string") true;
             mkFieldSpec (lit "role") (lit "string") true]);
    mkApiEndpoint (lit "DELETE") (lit "/api/admin/users")
      (lit "Delete user (Admin only)") true (Some true)
      (Some [mkFieldSpec (lit "id") (lit "string") true])
      None ].

(** [canAccessApi]; [session] is the [data] of [useSession()]. *)
Definition canAccessApi (session : option Session) (api : ApiEndpoint)
  : bool :=
  if negb (requiresAuth api) then true
  else
    match session with
    | None => false
    | Some s =>
        if dflt (requiresAdmin api) false
           && negb (streq (su_role (user s)) (lit "admin"))
        then false
        else true
    end.

End ApiTester.

(* ================================================================== *)
(** ** Readings of the specification and sample data *)
(* ================================================================== *)

Module Reading.

(** Field access on a value, for inspecting response bodies. *)
Definition field (v : Value) (k : jsstring) : Value :=
  match v with
  | VObj props => getProp props k
  | _ => VUndefined
  end.

Definition items (v : Value) : list Value :=
  match v with
  | VArr l => l
  | _ => []
  end.

(** The [data.users] array of a listing outcome; empty when the handler
    did not answer with one. *)
Definition usersOf (outcome : Completion Response * World) : list Value :=
  match fst outcome with
  | Normal r => items (field (field (body r) (lit "data")) (lit "users"))
  | Throw _ => []
  end.


Definition statusOf (outcome : Completion Response * World) : option Z :=
  match fst outcome with
  | Normal r => Some (status r)
  | Throw _ => None
  end.

(** The success envelope [{ success: true, data }]. *)
Definition isSuccessEnvelope (r : Response) : bool :=
  match body r with
  | VObj [(k1, VBool true); (k2, _)] =>
      streq k1 (lit "success") && streq k2 (lit "data")
  | _ => false
  end.

(** The error envelope [{ success: false, error: <message> }]. *)
Definition isErrorEnvelope (r : Response) : bool :=
  match body r with
  | VObj [(k1, VBool false); (k2, VStr _)] =>
      streq k1 (lit "success") && streq k2 (lit "error")
  | _ => false
  end.

Definition conforms (r : Response) : bool :=
  isSuccessEnvelope r || isErrorEnvelope r.

(** An outcome that is a response in one of the two envelopes. *)
Definition answersInEnvelope (outcome : Completion Response * World)
  : Prop :=
  exists r w', outcome = (Normal r, w') /\ conforms r = true.

(** What a listed record exposes: the seven selected keys, among them
    the session count, and no [password]. *)
Definition exposed (u : Value) : Prop :=
  exists props n,
    u = VObj props
    /\ keys props
       = [lit "id"; lit "name"; lit "email"; lit "role"; lit "createdAt";
          lit "updatedAt"; lit "_count"]
    /\ hasProp props (lit "password") = false
    /\ getProp props (lit "_count") = VObj [(lit "sessions", VNum (Fin n))].

(** A missing value in the words of the specification: absent, [null],
    or a string that is empty after trimming. *)
Definition missingPerSpec (v : Value) : bool :=
  match v with
  | VUndefined | VNull => true
  | VStr s => streq (trim s) []
  | _ => false
  end.




(** The stored records with the credential blanked. *)
Definition scrub (u : User) : User :=
  mkUser (id u) (name u) (email u) [] (role u) (createdAt u) (updatedAt u)
         (sessions u).

Definition scrubWorld (w : World) : World := setDb w (map scrub (db w)).

(** Sample callers, records and stores. *)
Definition adminCaller : Session :=
  mkSession (mkSessionUser (lit "a1") (lit "root@x.com") (lit "Root")
                           (lit "admin")).

Definition plainCaller : Session :=
  mkSession (mkSessionUser (lit "u1") (lit "a@x.com") (lit "Ann")
                           (lit "user")).

Definition ann : User :=
  mkUser (lit "u1") (lit "Ann") (lit "a@x.com") (lit "$2b$10$hashA")
         (lit "user") 1000 1000 [lit "tok1"].

Definition bob : User :=
  mkUser (lit "u2") (lit "Bob") (lit "b@x.com") (lit "$2b$10$hashB")
         (lit "user") 2000 2000 [].

Definition root : User :=
  mkUser (lit "a1") (lit "Root") (lit "root@x.com") (lit "$2b$10$hashR")
         (lit "admin") 500 500 [lit "tok0"].

Definition sampleWorld : World :=
  mkWorld [root; ann; bob] None 5000 [] [].

(** The sample store while the database server cannot be reached. *)
Definition unreachable : Exn :=
  mkExn (lit "PrismaClientInitializationError") (Some (lit "P1001"))
        (lit "Can't reach database server at db.internal:5432").

Definition brokenWorld : World :=
  mkWorld [root; ann; bob] (Some unreachable) 5000 [] [].

Definition noBody (params : list (jsstring * jsstring)) : Request :=
  mkRequest params None.

Definition withBody (b : Value) : Request := mkRequest [] (Some b).

(** Creation timestamps in non-increasing order. *)
Fixpoint descending (l : list Z) : bool :=
  match l with
  | a :: (b :: _) as rest => (b <=? a) && descending rest
  | _ => true
  end.

(** The [createdAt] of a listed record. *)
Definition createdAtOf (u : Value) : Z :=
  match field u (lit "createdAt") with
  | VDate t => t
  | _ => 0
  end.

(** A record whose role is one of the two enumerated values. *)
Definition hasKnownRole (u : User) : Prop :=
  role u = lit "user" \/ role u = lit "admin".

(** Everything of a record that a role update must leave alone. *)
Definition fixedPart (u : User)
  : jsstring * jsstring * jsstring * jsstring * Z * list jsstring :=
  (id u, name u, email u, password u, createdAt u, sessions u).

(** A 401 or 403 answer. *)
Definition rejected (outcome : Completion Response * World) : bool :=
  match statusOf outcome with
  | Some st => (st =? 401) || (st =? 403)
  | None => false
  end.

End Reading.

Export Reading.

(* ================================================================== *)
(** * Properties *)
(* ================================================================== *)

(** ** Strings *)

Section StringFacts.

Lemma streq_refl (a : jsstring) : streq a a = true.
Proof.
  induction a as [|x a IH]; simpl; [reflexivity|].
  now rewrite N.eqb_refl, IH.
Qed.

Lemma streq_eq (a b : jsstring) : streq a b = true <-> a = b.
Proof.
  split; [|intros ->; apply streq_refl].
  revert b; induction a as [|x a IH]; intros [|y b]; simpl;
    try discriminate; [reflexivity|].
  intros H; apply andb_prop in H as [Hx Hr].
  apply N.eqb_eq in Hx; subst y.
  now rewrite (IH b Hr).
Qed.

Lemma streq_neq (a b : jsstring) : streq a b = false <-> a <> b.
Proof.
  split.
  - intros H E; apply streq_eq in E; congruence.
  - intros H; destruct (streq a b) eqn:E; [|reflexivity].
    apply streq_eq in E; contradiction.
Qed.

Lemma trimStart_split (s : jsstring) :
  exists pre, s = pre ++ trimStart s /\ forallb isWhiteSpace pre = true.
Proof.
  induction s as [|c s IH]; simpl.
  - now exists [].
  - destruct (isWhiteSpace c) eqn:Hc.
    + destruct IH as (pre & E & Hpre).
      exists (c :: pre); simpl; rewrite Hc, Hpre; split; [|reflexivity].
      now f_equal.
    + now exists [].
Qed.

Lemma trimStart_head (s : jsstring) :
  match trimStart s with
  | c :: _ => isWhiteSpace c = false
  | [] => True
  end.
Proof.
  induction s as [|c s IH]; simpl; [exact I|].
  destruct (isWhiteSpace c) eqn:Hc; [exact IH | exact Hc].
Qed.

Lemma forallb_rev {A} (f : A -> bool) (l : list A) :
  forallb f (rev l) = forallb f l.
Proof.
  induction l as [|x l IH]; simpl; [reflexivity|].
  rewrite forallb_app, IH; simpl.
  rewrite andb_true_r; apply andb_comm.
Qed.

Lemma trimEnd_split (s : jsstring) :
  exists post, s = trimEnd s ++ post /\ forallb isWhiteSpace post = true.
Proof.
  unfold trimEnd.
  destruct (trimStart_split (rev s)) as (pre & E & Hpre).
  exists (rev pre); split.
  - rewrite <- rev_app_distr, <- E; symmetry; apply rev_involutive.
  - now rewrite forallb_rev.
Qed.

Lemma trimEnd_last (s : jsstring) :
  match rev (trimEnd s) with
  | c :: _ => isWhiteSpace c = false
  | [] => True
  end.
Proof.
  unfold trimEnd; rewrite rev_involutive; apply trimStart_head.
Qed.

Lemma trim_split (s : jsstring) :
  exists pre post,
    s = pre ++ trim s ++ post
    /\ forallb isWhiteSpace pre = true
    /\ forallb isWhiteSpace post = true.
Proof.
  destruct (trimStart_split s) as (pre & E1 & Hpre).
  destruct (trimEnd_split (trimStart s)) as (post & E2 & Hpost).
  exists pre, post; unfold trim; repeat split; try assumption.
  now rewrite <- E2.
Qed.

Lemma trim_head (s : jsstring) :
  match trim s with
  | c :: _ => isWhiteSpace c = false
  | [] => True
  end.
Proof.
  unfold trim.
  destruct (trimEnd_split (trimStart s)) as (post & E & _).
  pose proof (trimStart_head s) as H.
  destruct (trimEnd (trimStart s)) as [|c t]; [exact I|].
  rewrite E in H; exact H.
Qed.

Lemma trim_last (s : jsstring) :
  match rev (trim s) with
  | c :: _ => isWhiteSpace c = false
  | [] => True
  end.
Proof. apply trimEnd_last. Qed.

Lemma trimStart_blank (s : jsstring) :
  forallb isWhiteSpace s = true -> trimStart s = [].
Proof.
  induction s as [|c s IH]; simpl; [reflexivity|].
  intros H; apply andb_prop in H as [Hc Hs]; rewrite Hc; auto.
Qed.

(** A string trims to the empty string exactly when it is made of white
    space only. *)
Lemma trim_empty_iff (s : jsstring) :
  streq (trim s) [] = forallb isWhiteSpace s.
Proof.
  destruct (forallb isWhiteSpace s) eqn:H.
  - unfold trim; now rewrite (trimStart_blank s H).
  - apply streq_neq; intros E.
    destruct (trim_split s) as (pre & post & Es & Hpre & Hpost).
    rewrite E in Es; simpl in Es.
    rewrite Es, forallb_app, Hpre, Hpost in H; discriminate.
Qed.

Lemma replaceAll_delete (cls : N -> bool) (s : jsstring) :
  replaceAll cls [] s = filter (fun c => negb (cls c)) s.
Proof.
  induction s as [|c s IH]; simpl; [reflexivity|].
  destruct (cls c); simpl; now rewrite IH.
Qed.

End StringFacts.

(** ** lib/validation.ts *)

Section ValidationFacts.

Import Validation.

(** C10. [sanitizeString] returns its input with the leading and trailing
    white space dropped and every ['<'] and ['>'] deleted: the input is
    white space, then [trim input], then white space; the trimmed string
    neither starts nor ends with white space; the result is the trimmed
    string without its angle brackets, so it holds neither code unit 60
    nor 62.  Deleting brackets can expose white space, so a second pass
    may change the result: the function is not idempotent. *)
Theorem sanitizeString_trims_then_strips (input : jsstring) :
  (exists pre post,
      input = pre ++ trim input ++ post
      /\ forallb isWhiteSpace pre = true
      /\ forallb isWhiteSpace post = true)
  /\ match trim input with
     | c :: _ => isWhiteSpace c = false
     | [] => True
     end
  /\ match rev (trim input) with
     | c :: _ => isWhiteSpace c = false
     | [] => True
     end
  /\ sanitizeString input = filter (fun c => negb (isAngle c)) (trim input)
  /\ ~ In 60%N (sanitizeString input)
  /\ ~ In 62%N (sanitizeString input)
  /\ exists s, sanitizeString (sanitizeString s) <> sanitizeString s.
Proof.
  assert (E : sanitizeString input
              = filter (fun c => negb (isAngle c)) (trim input))
    by apply replaceAll_delete.
  repeat split.
  - apply trim_split.
  - apply trim_head.
  - apply trim_last.
  - exact E.
  - rewrite E; intros H; apply filter_In in H as [_ H]; discriminate.
  - rewrite E; intros H; apply filter_In in H as [_ H]; discriminate.
  - exists (lit "< a"); vm_compute; discriminate.
Qed.

Lemma collectMissing_filter (fields : list (jsstring * Value)) :
  collectMissing fields
  = map fst (filter (fun kv => isMissing (snd kv)) fields).
Proof.
  induction fields as [|[k v] fields IH]; simpl; [reflexivity|].
  destruct (isMissing v); simpl; now rewrite IH.
Qed.

Lemma isMissing_cases (v : Value) :
  isMissing v
  = match v with
    | VUndefined | VNull | VBool false => true
    | VNum NaN | VNum NegZero | VNum (Fin 0) => true
    | VStr s => forallb isWhiteSpace s
    | _ => false
    end.
Proof.
  destruct v as [| |[|]|n|s| | |]; try reflexivity.
  - destruct n as [| | | |[|p|p]]; reflexivity.
  - unfold isMissing; rewrite trim_empty_iff.
    destruct s; reflexivity.
Qed.

Lemma validateRequired_eq (fields : list (jsstring * Value)) :
  validateRequired fields
  = (if existsb (fun kv => isMissing (snd kv)) fields
     then Throw (Error (lit "Missing required fields: "
                        ++ join (lit ", ")
                             (map fst
                                (filter (fun kv => isMissing (snd kv))
                                        fields))))
     else Normal tt).
Proof.
  unfold validateRequired; rewrite collectMissing_filter.
  induction fields as [|[k v] fields IH]; simpl; [reflexivity|].
  destruct (isMissing v) eqn:Hv; simpl.
  - reflexivity.
  - exact IH.
Qed.

(** C6, as amended.  [validateRequired] throws exactly when some field
    fails the test [isMissing]; the message then lists exactly the keys
    of the failing fields, in iteration order, joined by [", "], and
    otherwise the call returns normally.  A value fails the test when it
    is falsy -- [undefined], [null], [false], a zero, [NaN] -- or a string
    of white space only (the empty string included). *)
Theorem validateRequired_lists_missing (fields : list (jsstring * Value)) :
  validateRequired fields
  = (if existsb (fun kv => isMissing (snd kv)) fields
     then Throw (Error (lit "Missing required fields: "
                        ++ join (lit ", ")
                             (map fst
                                (filter (fun kv => isMissing (snd kv))
                                        fields))))
     else Normal tt)
  /\ forall v,
       isMissing v
       = match v with
         | VUndefined | VNull | VBool false => true
         | VNum NaN | VNum NegZero | VNum (Fin 0) => true
         | VStr s => forallb isWhiteSpace s
         | _ => false
         end.
Proof.
  split; [apply validateRequired_eq | apply isMissing_cases].
Qed.

(** C6, counterexample: the field [a] of [{ a: 0 }] is neither absent,
    [null] nor a blank string, yet [validateRequired] throws and reports
    it. *)
Lemma validateRequired_rejects_zero :
  existsb (fun kv => missingPerSpec (snd kv)) [(lit "a", VNum (Fin 0))]
  = false
  /\ validateRequired [(lit "a", VNum (Fin 0))]
     = Throw (Error (lit "Missing required fields: a")).
Proof. split; reflexivity. Qed.

End ValidationFacts.

(** ** The session and role gate of /api/admin/users *)

Section GateFacts.

Import AdminUsers.

Lemma isAdmin_true (session : Session) :
  su_role (user session) = lit "admin" -> isAdmin session = true.
Proof. intros H; unfold isAdmin; rewrite H; reflexivity. Qed.

Lemma isAdmin_false (session : Session) :
  su_role (user session) <> lit "admin" -> isAdmin session = false.
Proof. intros H; unfold isAdmin; now apply streq_neq. Qed.

(** C1. On each of [GET], [PATCH] and [DELETE] of [/api/admin/users] a
    caller without a session is answered 401, whatever the request and
    the store, so never 403; a caller whose session role is not ['admin']
    is answered 403.  Neither answer touches the store. *)
Theorem admin_gate_checks_session_first (request : Request) (w : World) :
  (GET None request w = (Normal unauthorizedResponse, w)
   /\ PATCH None request w = (Normal unauthorizedResponse, w)
   /\ DELETE None request w = (Normal unauthorizedResponse, w)
   /\ status unauthorizedResponse = 401)
  /\ forall session : Session,
       su_role (user session) <> lit "admin" ->
       let forbidden := forbiddenResponse (Some (lit "Admin access required")) in
       GET (Some session) request w = (Normal forbidden, w)
       /\ PATCH (Some session) request w = (Normal forbidden, w)
       /\ DELETE (Some session) request w = (Normal forbidden, w)
       /\ status forbidden = 403.
Proof.
  split; [repeat split|].
  intros session H; apply isAdmin_false in H.
  unfold GET, PATCH, DELETE; rewrite H; simpl.
  repeat split.
Qed.

Lemma admin_gate_checks_session_first_witness :
  su_role (user plainCaller) <> lit "admin"
  /\ PATCH (Some plainCaller)
       (withBody (VObj [(lit "userId", VStr (lit "u2"));
                        (lit "role", VStr (lit "admin"))]))
       sampleWorld
     = (Normal (forbiddenResponse (Some (lit "Admin access required"))),
        sampleWorld).
Proof.
  split; [discriminate|].
  apply (proj2 (admin_gate_checks_session_first
                  (withBody (VObj [(lit "userId", VStr (lit "u2"));
                                   (lit "role", VStr (lit "admin"))]))
                  sampleWorld) plainCaller).
  discriminate.
Defined.

(** C5. For an admin caller, [DELETE] answers 400 with
    ["User ID is required"] when the [id] parameter is absent or empty,
    and 400 with ["Cannot delete your own account"] when a present [id]
    is the caller's own identifier.  In both cases the state of the
    server is the one it started from: no call reaches the store and no
    record is deleted. *)
Theorem DELETE_refuses_own_account
    (session : Session) (request : Request) (w : World) :
  su_role (user session) = lit "admin" ->
  (absent (get (searchParams request) (lit "id")) = true ->
   DELETE (Some session) request w
   = (Normal (errorResponse (lit "User ID is required") (Some 400)), w))
  /\ (forall uid,
        get (searchParams request) (lit "id") = Some uid ->
        uid <> [] ->
        uid = su_id (user session) ->
        DELETE (Some session) request w
        = (Normal (errorResponse (lit "Cannot delete your own account")
                                 (Some 400)), w))
  /\ (get (searchParams request) (lit "id") = Some (su_id (user session)) ->
      exists message,
        DELETE (Some session) request w
        = (Normal (errorResponse message (Some 400)), w)
        /\ status (errorResponse message (Some 400)) = 400).
Proof.
  intros Hadmin; apply isAdmin_true in Hadmin.
  assert (Hself : forall uid,
             get (searchParams request) (lit "id") = Some uid ->
             uid <> [] -> uid = su_id (user session) ->
             DELETE (Some session) request w
             = (Normal (errorResponse (lit "Cannot delete your own account")
                                      (Some 400)), w)).
  { intros uid Hget Hne Huid.
    unfold DELETE; rewrite Hadmin, Hget, <- Huid.
    destruct uid as [|c uid]; [contradiction|].
    unfold tryCatch; simpl.
    rewrite N.eqb_refl, streq_refl; reflexivity. }
  assert (Habs : absent (get (searchParams request) (lit "id")) = true ->
                 DELETE (Some session) request w
                 = (Normal (errorResponse (lit "User ID is required")
                                          (Some 400)), w)).
  { intros H; unfold DELETE; rewrite Hadmin; simpl.
    unfold tryCatch; rewrite H; reflexivity. }
  repeat split; try assumption.
  intros Hget.
  destruct (su_id (user session)) as [|c uid] eqn:E.
  - eexists; split; [apply Habs; rewrite Hget; reflexivity | reflexivity].
  - eexists; split; [|reflexivity].
    apply (Hself (c :: uid)); congruence.
Qed.

Lemma DELETE_refuses_own_account_witness :
  su_role (user adminCaller) = lit "admin"
  /\ get (searchParams (noBody [(lit "id", lit "a1")])) (lit "id")
     = Some (lit "a1")
  /\ lit "a1" <> []
  /\ lit "a1" = su_id (user adminCaller)
  /\ DELETE (Some adminCaller) (noBody [(lit "id", lit "a1")]) sampleWorld
     = (Normal (errorResponse (lit "Cannot delete your own account")
                              (Some 400)), sampleWorld).
Proof.
  split; [reflexivity|].
  split; [reflexivity|].
  split; [discriminate|].
  split; [reflexivity|].
  apply (proj1 (proj2 (DELETE_refuses_own_account adminCaller
                         (noBody [(lit "id", lit "a1")]) sampleWorld
                         eq_refl)) (lit "a1"));
    [reflexivity | discriminate | reflexivity].
Defined.

End GateFacts.

(** ** Running the handlers *)

(** Unfolds the monad of the handlers, leaving the calls to the store
    folded. *)
Ltac run_handler :=
  cbv beta iota delta
    [tryCatch bind lift ret throw promiseAll console_error request_json
     destructure db fault clock queries console fst snd].

(** Unfolds the store operations as well. *)
Ltac run :=
  cbv beta iota delta
    [tryCatch bind lift ret throw promiseAll findMany count update delete
     issue checkFault console_error setDb request_json destructure
     db fault clock queries console fst snd].

(** One case split on the next test a handler or the store performs. *)
Ltac step_then tac :=
  match goal with
  | |- context [match ?x with _ => _ end] => is_var x; destruct x
  | |- context [match asSkip ?x with _ => _ end] => destruct (asSkip x) eqn:?
  | |- context [match asTake ?x with _ => _ end] => destruct (asTake x) eqn:?
  | |- context [match json ?x with _ => _ end] => destruct (json x) eqn:?
  | |- context [match Validation.validateRequired ?x with _ => _ end] =>
      destruct (Validation.validateRequired x) eqn:?
  | |- context [match getProp ?x ?y with _ => _ end] =>
      destruct (getProp x y) eqn:?
  | |- context [match findById ?x ?y with _ => _ end] =>
      destruct (findById x y) eqn:?
  | |- context [if negb ?x then _ else _] => destruct x eqn:?; cbn [negb]
  | |- context [if codeIs ?x ?y then _ else _] => destruct (codeIs x y) eqn:?
  | |- context [if absent ?x then _ else _] => destruct (absent x) eqn:?
  | |- context [if streq ?x ?y then _ else _] => destruct (streq x y) eqn:?
  end; tac.

Ltac step := step_then run.

(** ** lib/api-utils.ts and the envelope of the responses *)

Section EnvelopeFacts.

Import AdminUsers.

Local Ltac answered := eexists; eexists; split; reflexivity.

Lemma GET_answers_in_envelope session request w :
  answersInEnvelope (GET session request w).
Proof.
  destruct session as [s|], w as [d f c q k]; unfold GET; [|answered].
  destruct (isAdmin s); cbn [negb]; [|answered].
  run; repeat step; answered.
Qed.

Lemma PATCH_answers_in_envelope session request w :
  answersInEnvelope (PATCH session request w).
Proof.
  destruct session as [s|], w as [d f c q k]; unfold PATCH; [|answered].
  destruct (isAdmin s); cbn [negb]; [|answered].
  run; repeat step; answered.
Qed.

Lemma DELETE_answers_in_envelope session request w :
  answersInEnvelope (DELETE session request w).
Proof.
  destruct session as [s|], w as [d f c q k]; unfold DELETE; [|answered].
  destruct (isAdmin s); cbn [negb]; [|answered].
  run; repeat step; answered.
Qed.

(** C3, as amended.  [successResponse] builds
    [{ success: true, data }] with status 200 unless the caller gives
    another, and [errorResponse] builds [{ success: false, error }] with
    the status it is given (400 when none is); every answer of the three
    [/api/admin/users] handlers, whatever the caller, the request and the
    store, is a response in one of these two envelopes.  The handlers of
    [/api/protected] and [/api/hello] build their bodies directly and
    none of their responses is in either envelope. *)
Theorem envelopes_of_the_handlers :
  (forall data status',
      successResponse data status'
      = mkResponse (match status' with Some s => s | None => 200 end)
          (VObj [(lit "success", VBool true); (lit "data", data)]))
  /\ (forall message status',
         errorResponse message status'
         = mkResponse (match status' with Some s => s | None => 400 end)
             (VObj [(lit "success", VBool false);
                    (lit "error", VStr message)]))
  /\ (forall session request w,
         (exists r w', GET session request w = (Normal r, w')
                       /\ conforms r = true)
         /\ (exists r w', PATCH session request w = (Normal r, w')
                          /\ conforms r = true)
         /\ (exists r w', DELETE session request w = (Normal r, w')
                          /\ conforms r = true))
  /\ (forall session now, conforms (Protected.GET session now) = false)
  /\ (forall now, conforms (Hello.GET now) = false)
  /\ (forall request, conforms (Hello.POST request) = false).
Proof.
  split; [intros data [s|]; reflexivity|].
  split; [intros message [s|]; reflexivity|].
  split.
  { intros session request w; repeat split.
    - apply GET_answers_in_envelope.
    - apply PATCH_answers_in_envelope.
    - apply DELETE_answers_in_envelope. }
  split; [intros [s|] now; reflexivity|].
  split; [intros now; reflexivity|].
  intros request; unfold Hello.POST, request_json.
  destruct (json request); reflexivity.
Qed.

(** C3, counterexample: the 401 answer of [GET /api/protected] to an
    anonymous caller is [{ error: ... }] without a [success] field, and
    the answer of [GET /api/hello] is [{ message, timestamp, status }]:
    neither is an envelope. *)
Lemma protected_and_hello_bypass_envelope :
  body (Protected.GET None (lit "2024-01-01T00:00:00.000Z"))
  = VObj [(lit "error", VStr (lit "Unauthorized - Please sign in"))]
  /\ conforms (Protected.GET None (lit "2024-01-01T00:00:00.000Z")) = false
  /\ field (body (Hello.GET (lit "2024-01-01T00:00:00.000Z"))) (lit "success")
     = VUndefined
  /\ conforms (Hello.GET (lit "2024-01-01T00:00:00.000Z")) = false.
Proof. repeat split. Qed.

End EnvelopeFacts.

(** ** Updating and deleting: validation and store failures *)

Section MutationFacts.

Import AdminUsers Validation.

Variable session : Session.
Hypothesis admin : su_role (user session) = lit "admin".

Lemma validateRequired_pair_ok (uid r : jsstring) :
  forallb isWhiteSpace uid = false ->
  forallb isWhiteSpace r = false ->
  validateRequired [(lit "userId", VStr uid); (lit "role", VStr r)]
  = Normal tt.
Proof.
  intros Hu Hr.
  rewrite validateRequired_eq; simpl.
  now rewrite !isMissing_cases, Hu, Hr.
Qed.

(** The error of [validateRequired] is a plain [Error]: it carries no
    [code]. *)
Lemma validateRequired_throws_plain_error fields e c :
  validateRequired fields = Throw e -> codeIs e c = false.
Proof.
  rewrite validateRequired_eq.
  destruct (existsb _ fields); [|discriminate].
  intros [= <-]; reflexivity.
Qed.

(** What [PATCH] answers once the body is well formed and the [update]
    call has failed with [e]. *)
Lemma PATCH_update_failure request props uid r e w w1 :
  json request = Some (VObj props) ->
  getProp props (lit "userId") = VStr uid ->
  getProp props (lit "role") = VStr r ->
  forallb isWhiteSpace uid = false ->
  r = lit "user" \/ r = lit "admin" ->
  update (VStr uid) (VStr r) updateSelect w = (Throw e, w1) ->
  PATCH (Some session) request w
  = (Normal (if codeIs e (lit "P2025")
             then errorResponse (lit "User not found") (Some 404)
             else errorResponse (lit "Failed to update user") (Some 500)),
     snd (console_error (lit "Error updating user:") e w1)).
Proof.
  intros Hjson Hid Hrole Huid Hr Hupd.
  unfold PATCH; rewrite (isAdmin_true _ admin); cbn [negb].
  run_handler; rewrite Hjson, Hid, Hrole.
  rewrite validateRequired_pair_ok;
    [|assumption | destruct Hr; subst r; reflexivity].
  assert (Hin : includes [VStr (lit "user"); VStr (lit "admin")] (VStr r)
                = true) by (destruct Hr; subst r; reflexivity).
  rewrite Hin; cbn [negb]; rewrite Hupd.
  destruct (codeIs e (lit "P2025")); reflexivity.
Qed.

(** What [DELETE] answers once the [delete] call has failed with [e]. *)
Lemma DELETE_delete_failure request uid e w w1 :
  get (searchParams request) (lit "id") = Some uid ->
  uid <> [] ->
  uid <> su_id (user session) ->
  delete uid w = (Throw e, w1) ->
  DELETE (Some session) request w
  = (Normal (if codeIs e (lit "P2025")
             then errorResponse (lit "User not found") (Some 404)
             else errorResponse (lit "Failed to delete user") (Some 500)),
     snd (console_error (lit "Error deleting user:") e w1)).
Proof.
  intros Hget Hne Hother Hdel.
  unfold DELETE; rewrite (isAdmin_true _ admin), Hget; cbn [negb].
  destruct uid as [|c uid]; [contradiction|].
  apply streq_neq in Hother.
  run_handler; cbn [absent orElse]; rewrite Hother, Hdel.
  destruct (codeIs e (lit "P2025")); reflexivity.
Qed.

Lemma update_missing_record uid r select w :
  fault w = None ->
  findById uid (db w) = None ->
  update (VStr uid) (VStr r) select w
  = (Throw recordNotFound, snd (issue (QUpdate (VStr uid) (VStr r)) w)).
Proof.
  intros Hf Hfind; destruct w as [d f c q k]; simpl in Hf, Hfind.
  run; rewrite Hf, Hfind; reflexivity.
Qed.

Lemma update_store_fault uid r select w e :
  fault w = Some e ->
  update (VStr uid) (VStr r) select w
  = (Throw e, snd (issue (QUpdate (VStr uid) (VStr r)) w)).
Proof.
  intros Hf; destruct w as [d f c q k]; simpl in Hf.
  run; rewrite Hf; reflexivity.
Qed.

Lemma delete_missing_record uid w :
  fault w = None ->
  findById uid (db w) = None ->
  delete uid w = (Throw recordNotFound, snd (issue (QDelete uid) w)).
Proof.
  intros Hf Hfind; destruct w as [d f c q k]; simpl in Hf, Hfind.
  run; rewrite Hf, Hfind; reflexivity.
Qed.

Lemma delete_store_fault uid w e :
  fault w = Some e ->
  delete uid w = (Throw e, snd (issue (QDelete uid) w)).
Proof.
  intros Hf; destruct w as [d f c q k]; simpl in Hf.
  run; rewrite Hf; reflexivity.
Qed.

(** C8. For an admin caller with a well-formed request, both [PATCH]
    and [DELETE] answer 404 ["User not found"] when the targeted record
    does not exist, because the store then signals [P2025]; a failure of
    the store with any other code is answered 500 with a fixed message
    (["Failed to update user"], ["Failed to delete user"]) in which
    nothing of the error appears.  In every case the error goes to the
    server console and the records are left as they were. *)
Theorem store_failures_are_remapped (w : World) :
  (forall request props uid r,
      json request = Some (VObj props) ->
      getProp props (lit "userId") = VStr uid ->
      getProp props (lit "role") = VStr r ->
      forallb isWhiteSpace uid = false ->
      r = lit "user" \/ r = lit "admin" ->
      (fault w = None -> findById uid (db w) = None ->
       exists w',
         PATCH (Some session) request w
         = (Normal (errorResponse (lit "User not found") (Some 404)), w')
         /\ db w' = db w
         /\ console w'
            = console w ++ [(lit "Error updating user:", recordNotFound)])
      /\ (forall e, fault w = Some e ->
          exists w',
            PATCH (Some session) request w
            = (Normal
                 (if codeIs e (lit "P2025")
                  then errorResponse (lit "User not found") (Some 404)
                  else errorResponse (lit "Failed to update user")
                                     (Some 500)), w')
            /\ db w' = db w
            /\ console w' = console w ++ [(lit "Error updating user:", e)]))
  /\ (forall request uid,
         get (searchParams request) (lit "id") = Some uid ->
         uid <> [] ->
         uid <> su_id (user session) ->
         (fault w = None -> findById uid (db w) = None ->
          exists w',
            DELETE (Some session) request w
            = (Normal (errorResponse (lit "User not found") (Some 404)), w')
            /\ db w' = db w
            /\ console w'
               = console w ++ [(lit "Error deleting user:", recordNotFound)])
         /\ (forall e, fault w = Some e ->
             exists w',
               DELETE (Some session) request w
               = (Normal
                    (if codeIs e (lit "P2025")
                     then errorResponse (lit "User not found") (Some 404)
                     else errorResponse (lit "Failed to delete user")
                                        (Some 500)), w')
               /\ db w' = db w
               /\ console w'
                  = console w ++ [(lit "Error deleting user:", e)])).
Proof.
  split.
  - intros request props uid r Hjson Hid Hrole Huid Hr; split.
    + intros Hf Hfind.
      pose proof (PATCH_update_failure request props uid r recordNotFound
                    w _ Hjson Hid Hrole Huid Hr
                    (update_missing_record uid r _ w Hf Hfind)) as H.
      eexists; split; [exact H | split; reflexivity].
    + intros e Hf.
      pose proof (PATCH_update_failure request props uid r e w _
                    Hjson Hid Hrole Huid Hr
                    (update_store_fault uid r _ w e Hf)) as H.
      eexists; split; [exact H | split; reflexivity].
  - intros request uid Hget Hne Hother; split.
    + intros Hf Hfind.
      pose proof (DELETE_delete_failure request uid recordNotFound w _
                    Hget Hne Hother
                    (delete_missing_record uid w Hf Hfind)) as H.
      eexists; split; [exact H | split; reflexivity].
    + intros e Hf.
      pose proof (DELETE_delete_failure request uid e w _
                    Hget Hne Hother (delete_store_fault uid w e Hf)) as H.
      eexists; split; [exact H | split; reflexivity].
Qed.

(** With a role outside [user]/[admin], [PATCH] never reaches the
    store: it answers 400 when both fields pass [validateRequired], and
    the catch-all 500 when the body cannot be read or a field is
    missing. *)
Lemma PATCH_invalid_role_never_updates request w :
  (forall b, json request = Some b ->
     includes [VStr (lit "user"); VStr (lit "admin")] (field b (lit "role"))
     = false) ->
  exists r w',
    PATCH (Some session) request w = (Normal r, w')
    /\ db w' = db w
    /\ queries w' = queries w
    /\ (r = errorResponse
              (lit "Invalid role. Must be " ++ quoted (lit "user")
               ++ lit " or " ++ quoted (lit "admin")) (Some 400)
        \/ r = errorResponse (lit "Failed to update user") (Some 500)).
Proof.
  intros H.
  unfold PATCH; rewrite (isAdmin_true _ admin); cbn [negb].
  destruct w as [d f c q k]; run_handler.
  destruct (json request) as [b|] eqn:Hjson; run_handler.
  - specialize (H b eq_refl).
    destruct b; unfold field in H; run_handler;
      repeat (step_then run_handler);
      try congruence;
      try match goal with
          | E : includes _ _ = true |- _ => vm_compute in E; discriminate E
          | E : validateRequired _ = Throw ?e, E' : codeIs ?e _ = true |- _ =>
              rewrite (validateRequired_throws_plain_error _ _ _ E) in E';
              discriminate E'
          | E : codeIs (mkExn _ None _) _ = true |- _ => discriminate E
          end;
      (eexists; eexists; split; [reflexivity|];
       split; [reflexivity|]; split; [reflexivity|]; auto).
  - eexists; eexists; split; [reflexivity|];
      split; [reflexivity|]; split; [reflexivity|]; auto.
Qed.

End MutationFacts.

Lemma store_failures_are_remapped_witness :
  su_role (user adminCaller) = lit "admin"
  /\ (exists w',
        AdminUsers.PATCH (Some adminCaller)
          (withBody (VObj [(lit "userId", VStr (lit "nobody"));
                           (lit "role", VStr (lit "admin"))]))
          sampleWorld
        = (Normal (errorResponse (lit "User not found") (Some 404)), w')
        /\ db w' = db sampleWorld
        /\ console w'
           = console sampleWorld
             ++ [(lit "Error updating user:", recordNotFound)])
  /\ (exists w',
        AdminUsers.DELETE (Some adminCaller) (noBody [(lit "id", lit "u2")])
          brokenWorld
        = (Normal (errorResponse (lit "Failed to delete user") (Some 500)),
           w')
        /\ db w' = db brokenWorld
        /\ console w'
           = console brokenWorld ++ [(lit "Error deleting user:", unreachable)]).
Proof.
  split; [reflexivity|]; split.
  - destruct (proj1 (store_failures_are_remapped adminCaller eq_refl
                       sampleWorld)
                (withBody (VObj [(lit "userId", VStr (lit "nobody"));
                                 (lit "role", VStr (lit "admin"))]))
                [(lit "userId", VStr (lit "nobody"));
                 (lit "role", VStr (lit "admin"))]
                (lit "nobody") (lit "admin")
                eq_refl eq_refl eq_refl eq_refl (or_intror eq_refl))
      as [H _].
    exact (H eq_refl eq_refl).
  - assert (Hne : lit "u2" <> []) by discriminate.
    assert (Hother : lit "u2" <> su_id (user adminCaller)) by discriminate.
    destruct (proj2 (store_failures_are_remapped adminCaller eq_refl
                       brokenWorld)
                (noBody [(lit "id", lit "u2")]) (lit "u2")
                eq_refl Hne Hother)
      as [_ H].
    exact (H unreachable eq_refl).
Defined.

(** C4, the failing request.  An admin caller sends
    [{ userId: "u1", role: "" }]: the role is neither ['user'] nor
    ['admin'], and the answer is the catch-all 500, not 400, because the
    error thrown by [validateRequired] lands in the handler's [catch].
    The store is not called. *)
Theorem PATCH_blank_role_answers_500 (w : World) :
  AdminUsers.PATCH (Some adminCaller)
    (withBody (VObj [(lit "userId", VStr (lit "u1")); (lit "role", VStr [])]))
    w
  = (Normal (errorResponse (lit "Failed to update user") (Some 500)),
     snd (console_error (lit "Error updating user:")
            (Error (lit "Missing required fields: role")) w)).
Proof. destruct w; reflexivity. Qed.

(** ** Numbers *)

Section NumberFacts.

(** Integers within the safe range are doubles. *)
Lemma roundDouble_safe (z : Z) :
  Z.abs z <= maxSafeInteger -> roundDouble z = Fin z.
Proof.
  intros H; unfold roundDouble, maxSafeInteger in *.
  replace (Z.abs z <? 2 ^ 53) with true by (symmetry; apply Z.ltb_lt; lia).
  reflexivity.
Qed.


Lemma sub_one (p : Z) :
  Z.abs (p - 1) <= maxSafeInteger -> sub (Fin p) (Fin 1) = Fin (p - 1).
Proof.
  intros H.
  assert (E : sub (Fin p) (Fin 1) = roundDouble (p - 1)) by reflexivity.
  rewrite E; now apply roundDouble_safe.
Qed.

Lemma mul_nonneg (x l : Z) :
  0 <= x -> 0 <= l -> x * l <= maxSafeInteger ->
  mul (Fin x) (Fin l) = Fin (x * l).
Proof.
  intros Hx Hl Hb; unfold mul, isNegative, toZ.
  destruct (x * l =? 0) eqn:E.
  - apply Z.eqb_eq in E; rewrite E.
    replace (x <? 0) with false by (symmetry; apply Z.ltb_ge; lia).
    replace (l <? 0) with false by (symmetry; apply Z.ltb_ge; lia).
    reflexivity.
  - apply roundDouble_safe; nia.
Qed.


(** Beyond the safe integers the arithmetic rounds to the nearest double
    (ties to even) and overflows to [Infinity]; an infinite limit makes
    the offset of page 1 [NaN]. *)
Lemma double_arithmetic_examples :
  parseInt (lit "9007199254740993") = Fin 9007199254740992
  /\ parseInt (lit "9007199254740995") = Fin 9007199254740996
  /\ mul (sub (Fin 94906268) (Fin 1)) (Fin 94906267)
     = Fin 9007199515875288
  /\ roundDouble (10 ^ 400) = PInf
  /\ roundDouble (- 10 ^ 400) = NInf
  /\ mul (sub (Fin 1) (Fin 1)) PInf = NaN.
Proof. repeat split; vm_compute; reflexivity. Qed.

End NumberFacts.

(** ** Listing: the page parameter *)

Section PageFacts.

Import AdminUsers.

Lemma skip_of_page (p l : Z) :
  1 <= p -> 0 <= l ->
  p - 1 <= maxSafeInteger -> (p - 1) * l <= maxSafeInteger ->
  mul (sub (Fin p) (Fin 1)) (Fin l) = Fin ((p - 1) * l).
Proof.
  intros Hp Hl Hb1 Hb2.
  rewrite sub_one by lia.
  apply mul_nonneg; lia.
Qed.





End PageFacts.

(** ** Listing: what a record exposes *)

Section ProjectionFacts.

Import AdminUsers.

Lemma usersOf_success users pagination st w :
  usersOf (Normal (successResponse
                     (VObj [(lit "users", VArr users); pagination]) st), w)
  = users.
Proof. reflexivity. Qed.

Lemma matches_scrub wh u : matches wh (scrub u) = matches wh u.
Proof.
  destruct wh as [|alts]; [reflexivity|]; simpl.
  induction alts as [|[f|f] alts IH]; simpl; [reflexivity| |];
    now rewrite IH.
Qed.

Lemma filter_scrub wh d :
  filter (matches wh) (map scrub d) = map scrub (filter (matches wh) d).
Proof.
  induction d as [|u d IH]; simpl; [reflexivity|].
  rewrite matches_scrub; destruct (matches wh u); simpl; now rewrite IH.
Qed.

Lemma insertDesc_scrub u l :
  insertDesc (scrub u) (map scrub l) = map scrub (insertDesc u l).
Proof.
  induction l as [|v l IH]; simpl; [reflexivity|].
  destruct (createdAt v <? createdAt u); simpl; [reflexivity|].
  now rewrite IH.
Qed.

Lemma orderBy_scrub l :
  orderByCreatedAtDesc (map scrub l) = map scrub (orderByCreatedAtDesc l).
Proof.
  induction l as [|u l IH]; simpl; [reflexivity|].
  unfold orderByCreatedAtDesc in *; simpl.
  now rewrite IH, insertDesc_scrub.
Qed.

Lemma window_map {B} (f : User -> B) s t rows :
  map f (window s t rows)
  = (if 0 <=? t then firstn (Z.to_nat t) (skipn s (map f rows))
     else rev (firstn (Z.to_nat (- t)) (skipn s (rev (map f rows))))).
Proof.
  unfold window; destruct (0 <=? t).
  - now rewrite skipn_map, firstn_map.
  - now rewrite <- map_rev, skipn_map, firstn_map, map_rev.
Qed.

Lemma project_scrub select u :
  ~ In f_password select -> project select (scrub u) = project select u.
Proof.
  intros H; unfold project; f_equal.
  apply map_ext_in; intros f Hf.
  destruct f; try reflexivity; contradiction.
Qed.

(** The rows a listing returns do not depend on the stored passwords. *)
Lemma listing_rows_scrub wh s t d :
  map (project listSelect) (window s t (rowsFor wh (map scrub d)))
  = map (project listSelect) (window s t (rowsFor wh d)).
Proof.
  rewrite !window_map; unfold rowsFor.
  rewrite filter_scrub, orderBy_scrub, map_map.
  rewrite (map_ext _ (project listSelect)); [reflexivity|].
  intros u; apply project_scrub.
  unfold listSelect; simpl; intuition discriminate.
Qed.

Lemma count_scrub wh d :
  List.length (filter (matches wh) (map scrub d))
  = List.length (filter (matches wh) d).
Proof. now rewrite filter_scrub, length_map. Qed.

Lemma project_listSelect_exposed u : exposed (project listSelect u).
Proof.
  eexists; eexists; split; [reflexivity|].
  repeat split.
Qed.

(** C9. Every record in the [users] array of an answer of
    [GET /api/admin/users] is an object whose keys are exactly [id],
    [name], [email], [role], [createdAt], [updatedAt] and [_count], the
    latter holding the session count; it has no [password] key.  The
    answer as a whole is the same when every stored password is blanked:
    no part of a response depends on the credential. *)
Theorem listing_never_exposes_password
    (session : option Session) (request : Request) (w : World) :
  Forall exposed (usersOf (GET session request w))
  /\ fst (GET session request (scrubWorld w)) = fst (GET session request w).
Proof.
  split.
  - destruct session as [s|], w as [d f c q k]; unfold GET;
      [|constructor].
    destruct (isAdmin s); cbn [negb]; [|constructor].
    run; repeat step; try (cbv [usersOf fst]; constructor; fail).
    rewrite usersOf_success.
    apply Forall_forall; intros u Hu.
    apply in_map_iff in Hu as (x & <- & _).
    apply project_listSelect_exposed.
  - destruct session as [s|], w as [d f c q k]; unfold GET, scrubWorld;
      [|reflexivity].
    destruct (isAdmin s); cbn [negb]; [|reflexivity].
    run; repeat step;
      rewrite ?count_scrub, ?listing_rows_scrub; reflexivity.
Qed.

(** The sample listing returns the three records, newest first, and the
    first one has the seven exposed fields. *)
Example listing_sample :
  map (fun u => field u (lit "id"))
      (usersOf (GET (Some adminCaller) (noBody []) sampleWorld))
  = [VStr (lit "u2"); VStr (lit "u1"); VStr (lit "a1")]
  /\ map (fun u => field u (lit "password"))
         (usersOf (GET (Some adminCaller) (noBody []) sampleWorld))
     = [VUndefined; VUndefined; VUndefined].
Proof. split; reflexivity. Qed.

End ProjectionFacts.

(** ** Reading back a decimal parameter *)

Section DecimalFacts.







End DecimalFacts.

(** ** Listing: pagination *)

Section PaginationFacts.

Import AdminUsers.





Lemma ceilDiv_of_count (t l : Z) :
  0 <= t -> 1 <= l -> ceilDiv (Fin t) (Fin l) = Fin (- ((- t) / l)).
Proof.
  intros Ht Hl; unfold ceilDiv, isZero, isNegative, toZ.
  replace (l =? 0) with false by (symmetry; apply Z.eqb_neq; lia).
  destruct (- (- t / l) =? 0) eqn:E; [|reflexivity].
  apply Z.eqb_eq in E; rewrite E.
  replace (t <? 0) with false by (symmetry; apply Z.ltb_ge; lia).
  replace (l <? 0) with false by (symmetry; apply Z.ltb_ge; lia).
  reflexivity.
Qed.

(** The answer of [GET] for a page of a working store. *)
Lemma GET_page (session : Session) (request : Request) (w : World) (p l : Z) :
  su_role (user session) = lit "admin" ->
  fault w = None ->
  pageOf request = Fin p ->
  limitOf request = Fin l ->
  1 <= p -> 1 <= l ->
  (p - 1) * l <= maxSafeInteger ->
  exists w',
    GET (Some session) request w
    = (Normal
         (successResponse
            (VObj
               [(lit "users",
                 VArr (map (project listSelect)
                         (firstn (Z.to_nat l)
                            (skipn (Z.to_nat ((p - 1) * l))
                               (rowsFor (whereFor (searchOf request))
                                        (db w))))));
                (lit "pagination",
                 VObj
                   [(lit "page", VNum (Fin p));
                    (lit "limit", VNum (Fin l));
                    (lit "total",
                     VNum (Fin (Z.of_nat
                                  (List.length
                                     (filter
                                        (matches (whereFor (searchOf request)))
                                        (db w))))));
                    (lit "totalPages",
                     VNum (Fin (- ((- Z.of_nat
                                        (List.length
                                           (filter
                                              (matches
                                                 (whereFor (searchOf request)))
                                              (db w))))
                                   / l))))])])
            None), w')
    /\ db w' = db w.
Proof.
  intros Hadmin Hfault Hpage Hlimit Hp Hl Hbound.
  assert (Hskip : skipOf request = Fin ((p - 1) * l))
    by (unfold skipOf; rewrite Hpage, Hlimit; apply skip_of_page; nia).
  unfold GET; rewrite (isAdmin_true _ Hadmin); cbn [negb].
  destruct w as [d f c q k]; simpl in Hfault; subst f.
  run; rewrite Hskip, Hlimit, Hpage; cbn [asSkip asTake].
  replace (0 <=? (p - 1) * l) with true by (symmetry; apply Z.leb_le; nia).
  run; unfold window.
  replace (0 <=? l) with true by (symmetry; apply Z.leb_le; lia).
  rewrite ceilDiv_of_count by lia.
  eexists; split; reflexivity.
Qed.








End PaginationFacts.

(** ** Regular expressions *)

Section RegexFacts.

Import Regex.

Local Ltac invert H := inversion H; subst; clear H.

Lemma nullable_iff (r : Regex) : nullable r = true <-> Accepts r [].
Proof.
  induction r as [| |cls|r1 IH1 r2 IH2|r1 IH1 r2 IH2|r IH]; simpl.
  - split; [discriminate | intros H; invert H].
  - split; [constructor | reflexivity].
  - split; [discriminate | intros H; invert H].
  - rewrite andb_true_iff, IH1, IH2; split.
    + intros [H1 H2]; apply (AcceptsSeq r1 r2 [] []); assumption.
    + intros H; inversion H as [| |? ? s1 s2 H1 H2 [E1 E2] E| | | |].
      apply app_eq_nil in E as [-> ->]; now split.
  - rewrite orb_true_iff, IH1, IH2; split.
    + intros [H|H]; [now apply AcceptsAltL | now apply AcceptsAltR].
    + intros H; invert H; auto.
  - split; [constructor | reflexivity].
Qed.

(** A non-empty string in [r*] starts with a non-empty string in [r]. *)
Lemma star_cons (r : Regex) (c : N) (s : jsstring) :
  Accepts (Star r) (c :: s) ->
  exists s1 s2,
    s = s1 ++ s2 /\ Accepts r (c :: s1) /\ Accepts (Star r) s2.
Proof.
  intros H; remember (Star r) as r' eqn:Er; remember (c :: s) as t eqn:Et.
  revert s Et; induction H as [| | | | | |r0 s1 s2 H1 _ H2 IH2];
    intros t' Et; try discriminate.
  injection Er as ->.
  destruct s1 as [|c1 s1]; simpl in Et.
  - apply IH2; [reflexivity | assumption].
  - injection Et as -> <-; exists s1, s2; auto.
Qed.

(** The two ways a concatenation can start with [c]. *)
Lemma seq_cons (r1 r2 : Regex) (c : N) (s : jsstring) :
  Accepts (Seq r1 r2) (c :: s) ->
  (exists s1 s2, s = s1 ++ s2 /\ Accepts r1 (c :: s1) /\ Accepts r2 s2)
  \/ (Accepts r1 [] /\ Accepts r2 (c :: s)).
Proof.
  intros H; inversion H as [| |? ? s1 s2 H1 H2 [E1 E2] E| | | |].
  destruct s1 as [|c1 s1]; simpl in E.
  - right; subst; split; assumption.
  - injection E as -> <-; left; exists s1, s2; auto.
Qed.

Lemma deriv_iff (c : N) (r : Regex) : forall s,
  Accepts (deriv c r) s <-> Accepts r (c :: s).
Proof.
  induction r as [| |cls|r1 IH1 r2 IH2|r1 IH1 r2 IH2|r IH]; intros s;
    simpl.
  - split; intros H; invert H.
  - split; intros H; invert H.
  - destruct (cls c) eqn:Hc; split; intros H; invert H.
    + now constructor.
    + constructor.
    + congruence.
  - assert (Hfirst : forall t,
               Accepts (Seq (deriv c r1) r2) t ->
               Accepts (Seq r1 r2) (c :: t)).
    { intros t H; invert H.
      match goal with
      | H1 : Accepts (deriv c r1) ?s1, H2 : Accepts r2 ?s2 |- _ =>
          apply IH1 in H1;
          apply (AcceptsSeq r1 r2 (c :: s1) s2); assumption
      end. }
    assert (Hback : forall s1 s2,
               Accepts r1 (c :: s1) -> Accepts r2 s2 ->
               Accepts (Seq (deriv c r1) r2) (s1 ++ s2)).
    { intros s1 s2 H1 H2; constructor; [now apply IH1 | assumption]. }
    destruct (nullable r1) eqn:Hn; split; intros H.
    + invert H; [now apply Hfirst|].
      apply nullable_iff in Hn.
      apply (AcceptsSeq r1 r2 [] (c :: s)); [assumption | now apply IH2].
    + destruct (seq_cons _ _ _ _ H) as [(s1 & s2 & -> & H1 & H2)|[_ H2]].
      * apply AcceptsAltL; now apply Hback.
      * apply AcceptsAltR; now apply IH2.
    + now apply Hfirst.
    + destruct (seq_cons _ _ _ _ H) as [(s1 & s2 & -> & H1 & H2)|[H1 _]].
      * now apply Hback.
      * apply nullable_iff in H1; congruence.
  - split; intros H; invert H.
    + apply AcceptsAltL; now apply IH1.
    + apply AcceptsAltR; now apply IH2.
    + apply AcceptsAltL; now apply IH1.
    + apply AcceptsAltR; now apply IH2.
  - split; intros H.
    + invert H.
      match goal with
      | H1 : Accepts (deriv c r) ?s1, H2 : Accepts (Star r) ?s2 |- _ =>
          apply IH in H1;
          apply (AcceptsStarApp r (c :: s1) s2); assumption
      end.
    + apply star_cons in H as (s1 & s2 & -> & H1 & H2).
      constructor; [now apply IH | assumption].
Qed.

(** [test] decides membership in the language of the pattern. *)
Lemma test_iff (s : jsstring) : forall r,
  test r s = true <-> Accepts r s.
Proof.
  induction s as [|c s IH]; intros r; simpl.
  - apply nullable_iff.
  - rewrite IH; apply deriv_iff.
Qed.

Lemma accepts_char (c : N) (s : jsstring) :
  Accepts (Char c) s <-> s = [c].
Proof.
  unfold Char; split.
  - intros H; invert H.
    match goal with Hc : (c =? _)%N = true |- _ =>
      apply N.eqb_eq in Hc; now subst end.
  - intros ->; constructor; apply N.eqb_refl.
Qed.

Lemma accepts_star_class (p : N -> bool) (s : jsstring) :
  Accepts (Star (Class p)) s <-> forallb p s = true.
Proof.
  split.
  - intros H; remember (Star (Class p)) as r eqn:Er.
    induction H as [| | | | | |r0 s1 s2 H1 _ H2 IH2]; try discriminate;
      [reflexivity|].
    injection Er as ->; invert H1; simpl.
    rewrite IH2 by reflexivity; now rewrite andb_true_r.
  - induction s as [|c s IH]; simpl; intros H; [constructor|].
    apply andb_prop in H as [Hc Hs].
    apply (AcceptsStarApp (Class p) [c] s); [now constructor | auto].
Qed.

Lemma accepts_plus_class (p : N -> bool) (s : jsstring) :
  Accepts (Plus (Class p)) s <-> s <> [] /\ forallb p s = true.
Proof.
  unfold Plus; split.
  - intros H; invert H.
    match goal with
    | H1 : Accepts (Class p) _, H2 : Accepts (Star (Class p)) _ |- _ =>
        invert H1; apply accepts_star_class in H2; simpl;
        split; [discriminate | now rewrite H2, andb_true_r]
    end.
  - intros [Hne H]; destruct s as [|c s]; [contradiction|].
    simpl in H; apply andb_prop in H as [Hc Hs].
    apply (AcceptsSeq (Class p) (Star (Class p)) [c] s);
      [now constructor | now apply accepts_star_class].
Qed.

End RegexFacts.

(** ** lib/validation.ts: emails, passwords and repeated sanitising *)

Section ValidationMoreFacts.

Import Regex Validation.

Lemma isValidEmail_accepts (email : jsstring) :
  isValidEmail email = true
  <-> exists l a b,
        email = l ++ 64%N :: a ++ 46%N :: b
        /\ (l <> [] /\ forallb notSpaceNorAt l = true)
        /\ (a <> [] /\ forallb notSpaceNorAt a = true)
        /\ (b <> [] /\ forallb notSpaceNorAt b = true).
Proof.
  unfold isValidEmail, emailRegex; rewrite test_iff; split.
  - intros H.
    inversion H as [| |? ? l t1 Hl H1| | | |]; subst; clear H.
    inversion H1 as [| |? ? at' t2 Hat H2| | | |]; subst; clear H1.
    inversion H2 as [| |? ? a t3 Ha H3| | | |]; subst; clear H2.
    inversion H3 as [| |? ? dot b Hdot Hb| | | |]; subst; clear H3.
    apply accepts_char in Hat, Hdot; subst.
    apply accepts_plus_class in Hl, Ha, Hb.
    exists l, a, b; auto.
  - intros (l & a & b & -> & Hl & Ha & Hb).
    apply accepts_plus_class in Hl, Ha, Hb.
    apply AcceptsSeq; [assumption|].
    apply (AcceptsSeq _ _ [64%N]); [now apply accepts_char|].
    apply AcceptsSeq; [assumption|].
    apply (AcceptsSeq _ _ [46%N]); [now apply accepts_char | assumption].
Qed.

Lemma notSpaceNorAt_all (l : jsstring) :
  forallb notSpaceNorAt l = true ->
  existsb isWhiteSpace l = false /\ count_occ N.eq_dec l 64%N = 0%nat.
Proof.
  induction l as [|c l IH]; simpl; intros H; [now split|].
  apply andb_prop in H as [Hc Hl]; destruct (IH Hl) as [Hw Hn].
  unfold notSpaceNorAt in Hc; apply negb_true_iff, orb_false_iff in Hc.
  destruct Hc as [Hc1 Hc2]; rewrite Hc1, Hw; split; [reflexivity|].
  apply N.eqb_neq in Hc2.
  destruct (N.eq_dec c 64); [contradiction | assumption].
Qed.

Lemma existsb_rev {A} (f : A -> bool) (l : list A) :
  existsb f (rev l) = existsb f l.
Proof.
  induction l as [|x l IH]; simpl; [reflexivity|].
  rewrite existsb_app, IH; simpl.
  rewrite orb_false_r; apply orb_comm.
Qed.

(** [trim] leaves alone a string that neither starts nor ends with white
    space. *)
Lemma trim_fixed (s : jsstring) :
  match s with c :: _ => isWhiteSpace c = false | [] => True end ->
  match rev s with c :: _ => isWhiteSpace c = false | [] => True end ->
  trim s = s.
Proof.
  intros Hhead Hlast.
  assert (E1 : trimStart s = s)
    by (destruct s as [|c s]; [reflexivity | simpl; now rewrite Hhead]).
  assert (E2 : trimStart (rev s) = rev s)
    by (destruct (rev s) as [|c t]; [reflexivity | simpl; now rewrite Hlast]).
  unfold trim, trimEnd; rewrite E1, E2; apply rev_involutive.
Qed.

Lemma trim_no_space (s : jsstring) :
  existsb isWhiteSpace s = false -> trim s = s.
Proof.
  intros H; apply trim_fixed.
  - destruct s as [|c s]; [exact I|].
    simpl in H; now apply orb_false_iff in H as [H _].
  - rewrite <- existsb_rev in H.
    destruct (rev s) as [|c t]; [exact I|].
    simpl in H; now apply orb_false_iff in H as [H _].
Qed.

Lemma trim_idempotent (s : jsstring) : trim (trim s) = trim s.
Proof. apply trim_fixed; [apply trim_head | apply trim_last]. Qed.

Lemma trim_incl (s : jsstring) (c : N) : In c (trim s) -> In c s.
Proof.
  intros H; destruct (trim_split s) as (pre & post & E & _).
  rewrite E; apply in_or_app; right; apply in_or_app; now left.
Qed.

Lemma length_trim (s : jsstring) :
  (List.length (trim s) <= List.length s)%nat.
Proof.
  destruct (trim_split s) as (pre & post & E & _).
  rewrite E at 2; rewrite !length_app; lia.
Qed.

Lemma filter_noop {A} (f : A -> bool) (l : list A) :
  (forall x, In x l -> f x = true) -> filter f l = l.
Proof.
  induction l as [|x l IH]; simpl; intros H; [reflexivity|].
  rewrite (H x (or_introl eq_refl)), IH; auto.
Qed.

Lemma sanitizeString_filter (s : jsstring) :
  sanitizeString s = filter (fun c => negb (isAngle c)) (trim s).
Proof. apply replaceAll_delete. Qed.

Lemma sanitizeString_clean (s : jsstring) (c : N) :
  In c (sanitizeString s) -> isAngle c = false.
Proof.
  rewrite sanitizeString_filter; intros H.
  apply filter_In in H as [_ H]; now apply negb_true_iff.
Qed.

(** Without angle brackets in its argument, [sanitizeString] is [trim]. *)
Lemma sanitizeString_no_angle (s : jsstring) :
  (forall c, In c s -> isAngle c = false) -> sanitizeString s = trim s.
Proof.
  intros H; rewrite sanitizeString_filter; apply filter_noop.
  intros c Hc; apply negb_true_iff, H, trim_incl, Hc.
Qed.

(** X1. [isValidEmail] accepts exactly the strings of the form
    [local@head.tail] in which the three parts are non-empty and hold
    neither white space nor ['@']; the parts may themselves hold dots. *)
Theorem isValidEmail_shape (email : jsstring) :
  isValidEmail email = true
  <-> exists l a b,
        email = l ++ 64%N :: a ++ 46%N :: b
        /\ (l <> [] /\ forallb notSpaceNorAt l = true)
        /\ (a <> [] /\ forallb notSpaceNorAt a = true)
        /\ (b <> [] /\ forallb notSpaceNorAt b = true).
Proof. apply isValidEmail_accepts. Qed.

Lemma isValidEmail_shape_witness :
  isValidEmail (lit "ann.lee@mail.example.org") = true
  /\ exists l a b,
       lit "ann.lee@mail.example.org" = l ++ 64%N :: a ++ 46%N :: b
       /\ (l <> [] /\ forallb notSpaceNorAt l = true)
       /\ (a <> [] /\ forallb notSpaceNorAt a = true)
       /\ (b <> [] /\ forallb notSpaceNorAt b = true).
Proof.
  split; [reflexivity|].
  exact (proj1 (isValidEmail_shape (lit "ann.lee@mail.example.org"))
           eq_refl).
Defined.

Lemma isValidEmail_facts (email : jsstring) :
  isValidEmail email = true ->
  existsb isWhiteSpace email = false
  /\ count_occ N.eq_dec email 64%N = 1%nat
  /\ (5 <= List.length email)%nat
  /\ validateEmail email = Normal tt.
Proof.
  intros H; pose proof H as Hv.
  apply isValidEmail_accepts in H
    as (l & a & b & -> & [Hl Hl'] & [Ha Ha'] & [Hb Hb']).
  apply notSpaceNorAt_all in Hl' as [Wl Cl], Ha' as [Wa Ca], Hb' as [Wb Cb].
  repeat split.
  - rewrite existsb_app; simpl; rewrite existsb_app; simpl.
    now rewrite Wl, Wa, Wb.
  - rewrite count_occ_app; simpl; rewrite count_occ_app; simpl.
    rewrite Cl, Ca, Cb; reflexivity.
  - rewrite length_app; simpl; rewrite length_app; simpl.
    destruct l, a, b; try contradiction; simpl; lia.
  - unfold validateEmail; now rewrite Hv.
Qed.

(** X2. A valid email holds no white space anywhere, exactly one ['@'],
    and at least five code units; [validateEmail] then returns
    normally. *)
Theorem isValidEmail_necessary (email : jsstring) :
  isValidEmail email = true ->
  existsb isWhiteSpace email = false
  /\ count_occ N.eq_dec email 64%N = 1%nat
  /\ (5 <= List.length email)%nat
  /\ validateEmail email = Normal tt.
Proof. apply isValidEmail_facts. Qed.

Lemma isValidEmail_necessary_witness :
  isValidEmail (lit "a@b.c") = true
  /\ existsb isWhiteSpace (lit "a@b.c") = false
  /\ count_occ N.eq_dec (lit "a@b.c") 64%N = 1%nat
  /\ (5 <= List.length (lit "a@b.c"))%nat
  /\ validateEmail (lit "a@b.c") = Normal tt.
Proof.
  split; [reflexivity|].
  exact (isValidEmail_necessary (lit "a@b.c") eq_refl).
Defined.

(** X3. A valid email is untouched by [trim] and is never reported as
    missing: [validateRequired] on a field holding it returns normally,
    whatever the key. *)
Theorem valid_email_is_present (key email : jsstring) :
  isValidEmail email = true ->
  trim email = email
  /\ isMissing (VStr email) = false
  /\ validateRequired [(key, VStr email)] = Normal tt.
Proof.
  intros H; destruct (isValidEmail_facts email H) as (Hw & _ & Hlen & _).
  assert (Ht : trim email = email) by now apply trim_no_space.
  assert (Hm : isMissing (VStr email) = false).
  { unfold isMissing; rewrite Ht.
    destruct email; [simpl in Hlen; lia | reflexivity]. }
  repeat split; try assumption.
  rewrite validateRequired_eq; simpl; now rewrite Hm.
Qed.

Lemma valid_email_is_present_witness :
  isValidEmail (lit "t@e.com") = true
  /\ trim (lit "t@e.com") = lit "t@e.com"
  /\ isMissing (VStr (lit "t@e.com")) = false
  /\ validateRequired [(lit "email", VStr (lit "t@e.com"))] = Normal tt.
Proof.
  split; [reflexivity|].
  exact (valid_email_is_present (lit "email") (lit "t@e.com") eq_refl).
Defined.

(** X4. A password of six or more white-space characters passes
    [validatePassword], which counts code units without trimming, while
    [validateRequired] reports the same value as missing. *)
Theorem blank_password_passes_length_check (key password : jsstring) :
  forallb isWhiteSpace password = true ->
  (6 <= List.length password)%nat ->
  validatePassword password = Normal tt
  /\ validateRequired [(key, VStr password)]
     = Throw (Error (lit "Missing required fields: " ++ key)).
Proof.
  intros Hw Hlen; split.
  - unfold validatePassword, isValidPassword.
    replace (6 <=? Z.of_nat (List.length password)) with true
      by (symmetry; apply Z.leb_le; lia).
    reflexivity.
  - rewrite validateRequired_eq; simpl.
    rewrite isMissing_cases, Hw; reflexivity.
Qed.

Lemma blank_password_passes_length_check_witness :
  forallb isWhiteSpace (lit "      ") = true
  /\ (6 <= List.length (lit "      "))%nat
  /\ validatePassword (lit "      ") = Normal tt
  /\ validateRequired [(lit "password", VStr (lit "      "))]
     = Throw (Error (lit "Missing required fields: " ++ lit "password")).
Proof.
  assert (H : (6 <= List.length (lit "      "))%nat) by (simpl; lia).
  split; [reflexivity|]; split; [exact H|].
  exact (blank_password_passes_length_check (lit "password") (lit "      ")
           eq_refl H).
Defined.

(** X5. Sanitising settles after two passes: a third pass changes
    nothing.  The result is never longer than the input. *)
Theorem sanitizeString_settles (input : jsstring) :
  sanitizeString (sanitizeString (sanitizeString input))
  = sanitizeString (sanitizeString input)
  /\ (List.length (sanitizeString input) <= List.length input)%nat.
Proof.
  split.
  - rewrite (sanitizeString_no_angle (sanitizeString input))
      by apply sanitizeString_clean.
    rewrite sanitizeString_no_angle.
    + apply trim_idempotent.
    + intros c Hc; apply trim_incl in Hc.
      now apply sanitizeString_clean in Hc.
  - rewrite sanitizeString_filter.
    etransitivity; [apply filter_length_le | apply length_trim].
Qed.

(** X6. On an input without angle brackets [sanitizeString] is [trim],
    and sanitising twice gives the same as sanitising once. *)
Theorem sanitizeString_without_brackets (input : jsstring) :
  existsb isAngle input = false ->
  sanitizeString input = trim input
  /\ sanitizeString (sanitizeString input) = sanitizeString input.
Proof.
  intros H.
  assert (Hin : forall c, In c input -> isAngle c = false).
  { intros c Hc; destruct (isAngle c) eqn:E; [|reflexivity].
    assert (existsb isAngle input = true)
      by (apply existsb_exists; now exists c).
    congruence. }
  assert (E : sanitizeString input = trim input)
    by now apply sanitizeString_no_angle.
  split; [exact E|].
  rewrite E, sanitizeString_no_angle.
  - apply trim_idempotent.
  - intros c Hc; apply Hin, trim_incl, Hc.
Qed.

Lemma sanitizeString_without_brackets_witness :
  existsb isAngle (lit "  Ann Lee ") = false
  /\ sanitizeString (lit "  Ann Lee ") = trim (lit "  Ann Lee ")
  /\ sanitizeString (sanitizeString (lit "  Ann Lee "))
     = sanitizeString (lit "  Ann Lee ").
Proof.
  split; [reflexivity|].
  exact (sanitizeString_without_brackets (lit "  Ann Lee ") eq_refl).
Defined.

Lemma collectMissing_app (f1 f2 : list (jsstring * Value)) :
  collectMissing (f1 ++ f2) = collectMissing f1 ++ collectMissing f2.
Proof.
  rewrite !collectMissing_filter, filter_app, map_app; reflexivity.
Qed.

Lemma validateRequired_ok_iff (fields : list (jsstring * Value)) :
  validateRequired fields = Normal tt <-> collectMissing fields = [].
Proof.
  unfold validateRequired.
  destruct (collectMissing fields); simpl; split; intros H;
    try reflexivity; discriminate.
Qed.

(** X7. Checking two groups of fields in one call succeeds exactly when
    checking each group on its own succeeds, and the fields reported for
    the whole are those of the first group followed by those of the
    second. *)
Theorem validateRequired_splits (f1 f2 : list (jsstring * Value)) :
  (validateRequired (f1 ++ f2) = Normal tt
   <-> validateRequired f1 = Normal tt /\ validateRequired f2 = Normal tt)
  /\ collectMissing (f1 ++ f2) = collectMissing f1 ++ collectMissing f2.
Proof.
  split; [|apply collectMissing_app].
  rewrite !validateRequired_ok_iff, collectMissing_app.
  split.
  - intros H; now apply app_eq_nil in H.
  - intros [-> ->]; reflexivity.
Qed.

Lemma validateRequired_splits_witness :
  validateRequired ([(lit "name", VStr (lit "T"))]
                    ++ [(lit "email", VStr (lit "t@e.com"))]) = Normal tt
  /\ validateRequired [(lit "name", VStr (lit "T"))] = Normal tt
  /\ validateRequired [(lit "email", VStr (lit "t@e.com"))] = Normal tt.
Proof.
  split; [reflexivity|].
  exact (proj1 (proj1 (validateRequired_splits
                         [(lit "name", VStr (lit "T"))]
                         [(lit "email", VStr (lit "t@e.com"))]))
           eq_refl).
Defined.

End ValidationMoreFacts.

(** ** The session helpers and the tester's access check *)

Section AccessFacts.

Import AuthHelpers ApiTester.

Lemma GET_admits (session : option Session) request w :
  rejected (AdminUsers.GET session request w)
  = negb (hasRole session (lit "admin")).
Proof.
  destruct session as [s|], w as [d f c q k]; [|reflexivity].
  unfold AdminUsers.GET, AdminUsers.isAdmin, hasRole.
  destruct (streq (su_role (user s)) (lit "admin")); cbn [negb];
    [|reflexivity].
  run; repeat step; reflexivity.
Qed.

Lemma PATCH_admits (session : option Session) request w :
  rejected (AdminUsers.PATCH session request w)
  = negb (hasRole session (lit "admin")).
Proof.
  destruct session as [s|], w as [d f c q k]; [|reflexivity].
  unfold AdminUsers.PATCH, AdminUsers.isAdmin, hasRole.
  destruct (streq (su_role (user s)) (lit "admin")); cbn [negb];
    [|reflexivity].
  run; repeat step; reflexivity.
Qed.

Lemma DELETE_admits (session : option Session) request w :
  rejected (AdminUsers.DELETE session request w)
  = negb (hasRole session (lit "admin")).
Proof.
  destruct session as [s|], w as [d f c q k]; [|reflexivity].
  unfold AdminUsers.DELETE, AdminUsers.isAdmin, hasRole.
  destruct (streq (su_role (user s)) (lit "admin")); cbn [negb];
    [|reflexivity].
  run; repeat step; reflexivity.
Qed.

(** X8. [requireRole] returns normally exactly when [hasRole] holds,
    and then returns the session it was given; without a session it
    throws ["Unauthorized"] whatever the role, and with a session of
    another role it throws ["Forbidden"].  A caller that [hasRole] is
    authenticated and its user carries that role. *)
Theorem requireRole_agrees_with_hasRole
    (session : option Session) (role : jsstring) :
  ((exists s, requireRole session role = Normal s)
   <-> hasRole session role = true)
  /\ (forall s, requireRole session role = Normal s -> session = Some s)
  /\ (isAuthenticated session = false ->
      requireRole session role = Throw (Error (lit "Unauthorized")))
  /\ (isAuthenticated session = true -> hasRole session role = false ->
      requireRole session role = Throw (Error (lit "Forbidden")))
  /\ (hasRole session role = true ->
      requireAuth session = requireRole session role
      /\ exists u, getAuthenticatedUser session = Some u /\ su_role u = role).
Proof.
  destruct session as [s|]; unfold requireRole, hasRole; simpl;
    [destruct (streq (su_role (user s)) role) eqn:E; simpl|];
    repeat split;
    try discriminate;
    try (intros [s' H]; discriminate H);
    try (intros s' H; discriminate H).
  - exists s; reflexivity.
  - now intros s' [= <-].
  - exists (user s); split; [reflexivity | now apply streq_eq].
Qed.

Lemma requireRole_agrees_with_hasRole_witness :
  hasRole (Some adminCaller) (lit "admin") = true
  /\ (exists s, requireRole (Some adminCaller) (lit "admin") = Normal s)
  /\ requireAuth (Some adminCaller)
     = requireRole (Some adminCaller) (lit "admin").
Proof.
  pose proof (requireRole_agrees_with_hasRole (Some adminCaller)
                (lit "admin")) as (Hiff & _ & _ & _ & Hhas).
  split; [reflexivity|]; split.
  - exact (proj2 Hiff eq_refl).
  - exact (proj1 (Hhas eq_refl)).
Defined.

(** X9. The gate written out in the three [/api/admin/users] handlers
    decides as [requireAdmin] does: where [requireAdmin] throws
    ["Unauthorized"] each handler answers 401, where it throws
    ["Forbidden"] each answers 403, and where it returns normally no
    handler answers 401 or 403, whatever the request and the store. *)
Theorem inline_gate_matches_requireAdmin
    (session : option Session) (request : Request) (w : World) :
  Forall
    (fun outcome =>
       match requireAdmin session with
       | Normal _ => rejected outcome = false
       | Throw e =>
           statusOf outcome
           = Some (if streq (exn_message e) (lit "Unauthorized") then 401
                   else 403)
       end)
    [AdminUsers.GET session request w;
     AdminUsers.PATCH session request w;
     AdminUsers.DELETE session request w].
Proof.
  pose proof (GET_admits session request w) as HG.
  pose proof (PATCH_admits session request w) as HP.
  pose proof (DELETE_admits session request w) as HD.
  destruct session as [s|]; unfold requireAdmin, requireRole; simpl.
  - unfold hasRole in HG, HP, HD.
    destruct (streq (su_role (user s)) (lit "admin")) eqn:E; simpl.
    + repeat constructor; assumption.
    + unfold AdminUsers.GET, AdminUsers.PATCH, AdminUsers.DELETE,
        AdminUsers.isAdmin; rewrite E.
      repeat constructor.
  - repeat constructor.
Qed.

(** X10. Each specialised error builder is [errorResponse] at a fixed
    status: 401, 403, 404 and 500, with the default messages
    ["Forbidden"], ["Resource not found"] and ["Internal server error"];
    the 404 of the handlers is [notFoundResponse('User')].  No response
    is in both envelopes. *)
Theorem error_builders_are_errorResponse :
  unauthorizedResponse
  = errorResponse (lit "Unauthorized - Please sign in") (Some 401)
  /\ (forall m, forbiddenResponse m
                = errorResponse (dflt m (lit "Forbidden")) (Some 403))
  /\ (forall r, notFoundResponse r
                = errorResponse (dflt r (lit "Resource") ++ lit " not found")
                                (Some 404))
  /\ (forall m, serverErrorResponse m
                = errorResponse (dflt m (lit "Internal server error"))
                                (Some 500))
  /\ notFoundResponse (Some (lit "User"))
     = errorResponse (lit "User not found") (Some 404)
  /\ (forall r, isSuccessEnvelope r && isErrorEnvelope r = false).
Proof.
  repeat split.
  intros [st b]; unfold isSuccessEnvelope, isErrorEnvelope; simpl.
  repeat match goal with
         | |- context [match ?x with _ => _ end] => is_var x; destruct x
         end;
    rewrite ?andb_false_r; reflexivity.
Qed.

(** X11. For every entry of the tester's endpoint table, [canAccessApi]
    predicts the server's gate: on [/api/admin/users] it is true
    exactly when the handler of any method does not answer 401 or 403;
    on [/api/protected] exactly when the route answers 200; and on
    [/api/hello] it is always true. *)
Theorem canAccessApi_predicts_the_gate
    (session : option Session) (api : ApiEndpoint)
    (request : Request) (w : World) (now : jsstring) :
  In api API_ENDPOINTS ->
  (path api = lit "/api/admin/users" ->
   canAccessApi session api
   = negb (rejected (AdminUsers.GET session request w))
   /\ canAccessApi session api
      = negb (rejected (AdminUsers.PATCH session request w))
   /\ canAccessApi session api
      = negb (rejected (AdminUsers.DELETE session request w)))
  /\ (path api = lit "/api/protected" ->
      canAccessApi session api
      = (status (Protected.GET session now) =? 200))
  /\ (path api = lit "/api/hello" ->
      canAccessApi session api = true
      /\ status (Hello.GET now) = 200
      /\ (status (Hello.POST request) = 200
          \/ status (Hello.POST request) = 400)).
Proof.
  intros Hin.
  rewrite GET_admits, PATCH_admits, DELETE_admits, negb_involutive.
  assert (Hpost : status (Hello.POST request) = 200
                  \/ status (Hello.POST request) = 400).
  { unfold Hello.POST, request_json; destruct (json request); auto. }
  simpl in Hin.
  repeat (destruct Hin as [<-|Hin]; [
    split; [|split]; intros Hp; try discriminate Hp;
    repeat split; try exact Hpost;
    destruct session as [s|]; try reflexivity;
    unfold canAccessApi, hasRole; simpl;
    destruct (streq (su_role (user s)) (lit "admin")); reflexivity |]).
  contradiction.
Qed.

Lemma canAccessApi_predicts_the_gate_witness :
  In (mkApiEndpoint (lit "DELETE") (lit "/api/admin/users")
        (lit "Delete user (Admin only)") true (Some true)
        (Some [mkFieldSpec (lit "id") (lit "string") true]) None)
     API_ENDPOINTS
  /\ canAccessApi (Some plainCaller)
       (mkApiEndpoint (lit "DELETE") (lit "/api/admin/users")
          (lit "Delete user (Admin only)") true (Some true)
          (Some [mkFieldSpec (lit "id") (lit "string") true]) None)
     = negb (rejected (AdminUsers.DELETE (Some plainCaller)
                         (noBody [(lit "id", lit "u2")]) sampleWorld)).
Proof.
  assert (Hin : In (mkApiEndpoint (lit "DELETE") (lit "/api/admin/users")
                      (lit "Delete user (Admin only)") true (Some true)
                      (Some [mkFieldSpec (lit "id") (lit "string") true])
                      None)
                   API_ENDPOINTS)
    by (simpl; tauto).
  split; [exact Hin|].
  exact (proj2 (proj2 (proj1 (canAccessApi_predicts_the_gate
                                (Some plainCaller) _
                                (noBody [(lit "id", lit "u2")]) sampleWorld
                                [] Hin) eq_refl))).
Defined.

End AccessFacts.

(** ** What updating and deleting do to the records *)

Section RecordFacts.

Import AdminUsers Validation.

Lemma findById_id uid d u :
  findById uid d = Some u -> streq (id u) uid = true.
Proof.
  unfold findById; intros H.
  now apply find_some in H as [_ H].
Qed.

Lemma findById_replaceById uid u' d u :
  findById uid d = Some u ->
  streq (id u') uid = true ->
  findById uid (replaceById uid u' d) = Some u'.
Proof.
  unfold findById; induction d as [|v d IH]; simpl; [discriminate|].
  destruct (streq (id v) uid) eqn:E; intros H Hid; simpl.
  - now rewrite Hid.
  - rewrite E; now apply IH.
Qed.

Lemma fixedPart_replaceById uid u' d u :
  findById uid d = Some u ->
  fixedPart u' = fixedPart u ->
  map fixedPart (replaceById uid u' d) = map fixedPart d.
Proof.
  unfold findById; induction d as [|v d IH]; simpl; [discriminate|].
  destruct (streq (id v) uid) eqn:E; intros H Hfix; simpl.
  - injection H as ->; now rewrite Hfix.
  - now rewrite IH.
Qed.

Lemma Forall_replaceById (P : User -> Prop) uid u' d :
  Forall P d -> P u' -> Forall P (replaceById uid u' d).
Proof.
  intros Hd Hu; induction Hd as [|v d Hv Hd IH]; simpl; [constructor|].
  destruct (streq (id v) uid); constructor; assumption.
Qed.

Lemma Forall_removeById (P : User -> Prop) uid d :
  Forall P d -> Forall P (removeById uid d).
Proof.
  intros Hd; induction Hd as [|v d Hv Hd IH]; simpl; [constructor|].
  destruct (streq (id v) uid); [assumption | now constructor].
Qed.

Lemma length_removeById uid d u :
  findById uid d = Some u ->
  S (List.length (removeById uid d)) = List.length d.
Proof.
  unfold findById; induction d as [|v d IH]; simpl; [discriminate|].
  destruct (streq (id v) uid); intros H; simpl; [reflexivity|].
  now rewrite IH.
Qed.

Lemma findById_removeById_other uid k d :
  streq uid k = false ->
  findById k (removeById uid d) = findById k d.
Proof.
  intros Hk; unfold findById; induction d as [|v d IH]; simpl;
    [reflexivity|].
  destruct (streq (id v) uid) eqn:E; simpl.
  - apply streq_eq in E; rewrite E, Hk; reflexivity.
  - now rewrite IH.
Qed.

Lemma others_removeById uid d :
  filter (fun x => negb (streq (id x) uid)) (removeById uid d)
  = filter (fun x => negb (streq (id x) uid)) d.
Proof.
  induction d as [|v d IH]; simpl; [reflexivity|].
  destruct (streq (id v) uid) eqn:E; simpl; [reflexivity|].
  now rewrite E, IH.
Qed.

Lemma findById_none uid d :
  ~ In uid (map id d) -> findById uid d = None.
Proof.
  unfold findById; induction d as [|v d IH]; simpl; intros H;
    [reflexivity|].
  destruct (streq (id v) uid) eqn:E.
  - apply streq_eq in E; tauto.
  - apply IH; tauto.
Qed.

Lemma findById_removeById_same uid d :
  NoDup (map id d) -> findById uid (removeById uid d) = None.
Proof.
  induction d as [|v d IH]; simpl; intros H; [reflexivity|].
  inversion H as [|? ? Hnotin Hnodup]; subst.
  destruct (streq (id v) uid) eqn:E.
  - apply streq_eq in E; subst uid; now apply findById_none.
  - unfold findById in *; simpl; rewrite E; now apply IH.
Qed.

Lemma includes_role (v : Value) :
  includes [VStr (lit "user"); VStr (lit "admin")] v = true ->
  v = VStr (lit "user") \/ v = VStr (lit "admin").
Proof.
  unfold includes; cbn [existsb]; rewrite orb_false_r.
  destruct v; try discriminate; cbn [sameValueZero].
  intros H; apply orb_prop in H as [H|H]; apply streq_eq in H; subst; auto.
Qed.

Lemma validateRequired_pair (k1 k2 : jsstring) (v1 v2 : Value) a :
  validateRequired [(k1, v1); (k2, v2)] = Normal a ->
  isMissing v1 = false /\ isMissing v2 = false.
Proof.
  rewrite validateRequired_eq; simpl.
  destruct (isMissing v1), (isMissing v2); simpl; try discriminate; auto.
Qed.

Lemma isMissing_truthy (v : Value) : isMissing v = false -> truthy v = true.
Proof.
  unfold isMissing; intros H; apply orb_false_iff in H as [H _].
  now apply negb_false_iff.
Qed.

(** X12. A well-formed [PATCH] by an admin on a working store, naming
    an existing record, answers 200 with that record's [id], [name],
    [email] and new [role] and nothing else of it; afterwards looking
    the id up gives the record with the new role and the clock reading
    as its last-update timestamp, everything else as before. *)
Theorem PATCH_sets_the_role
    (session : Session) (request : Request) (w : World)
    (props : list (jsstring * Value)) (uid r : jsstring) (u : User) :
  su_role (user session) = lit "admin" ->
  json request = Some (VObj props) ->
  getProp props (lit "userId") = VStr uid ->
  getProp props (lit "role") = VStr r ->
  forallb isWhiteSpace uid = false ->
  r = lit "user" \/ r = lit "admin" ->
  fault w = None ->
  findById uid (db w) = Some u ->
  exists w' u',
    PATCH (Some session) request w
    = (Normal
         (successResponse
            (VObj [(lit "message",
                    VStr (lit "User role updated successfully"));
                   (lit "user",
                    VObj [(lit "id", VStr (id u));
                          (lit "name", VStr (name u));
                          (lit "email", VStr (email u));
                          (lit "role", VStr r)])])
            None), w')
    /\ findById uid (db w') = Some u'
    /\ role u' = r
    /\ updatedAt u' = clock w
    /\ fixedPart u' = fixedPart u
    /\ List.length (db w') = List.length (db w).
Proof.
  intros Hadmin Hjson Hid Hrole Huid Hr Hfault Hfind.
  unfold PATCH; rewrite (isAdmin_true _ Hadmin); cbn [negb].
  destruct w as [d f c q k]; simpl in Hfault, Hfind; subst f.
  run; rewrite Hjson, Hid, Hrole.
  rewrite validateRequired_pair_ok;
    [|assumption | destruct Hr; subst r; reflexivity].
  assert (Hin : includes [VStr (lit "user"); VStr (lit "admin")] (VStr r)
                = true) by (destruct Hr; subst r; reflexivity).
  rewrite Hin; cbn [negb]; run; rewrite Hfind.
  eexists; eexists; split; [reflexivity|].
  cbn [db].
  split; [apply (findById_replaceById _ _ _ u Hfind);
          apply (findById_id _ _ _ Hfind)|].
  repeat split.
  rewrite <- (length_map fixedPart (replaceById _ _ _)),
    (fixedPart_replaceById _ _ _ u Hfind), length_map; reflexivity.
Qed.

Lemma PATCH_sets_the_role_witness :
  su_role (user adminCaller) = lit "admin"
  /\ fault sampleWorld = None
  /\ findById (lit "u2") (db sampleWorld) = Some bob
  /\ exists w' u',
       PATCH (Some adminCaller)
         (withBody (VObj [(lit "userId", VStr (lit "u2"));
                          (lit "role", VStr (lit "admin"))]))
         sampleWorld
       = (Normal
            (successResponse
               (VObj [(lit "message",
                       VStr (lit "User role updated successfully"));
                      (lit "user",
                       VObj [(lit "id", VStr (id bob));
                             (lit "name", VStr (name bob));
                             (lit "email", VStr (email bob));
                             (lit "role", VStr (lit "admin"))])])
               None), w')
       /\ findById (lit "u2") (db w') = Some u'
       /\ role u' = lit "admin"
       /\ updatedAt u' = clock sampleWorld
       /\ fixedPart u' = fixedPart bob
       /\ List.length (db w') = List.length (db sampleWorld).
Proof.
  split; [reflexivity|]; split; [reflexivity|]; split; [reflexivity|].
  exact (PATCH_sets_the_role adminCaller
           (withBody (VObj [(lit "userId", VStr (lit "u2"));
                            (lit "role", VStr (lit "admin"))]))
           sampleWorld
           [(lit "userId", VStr (lit "u2")); (lit "role", VStr (lit "admin"))]
           (lit "u2") (lit "admin") bob
           eq_refl eq_refl eq_refl eq_refl eq_refl (or_intror eq_refl)
           eq_refl eq_refl).
Defined.

(** X13. Whatever the caller and the request, [PATCH] leaves the list
    of records as it was in everything but roles and last-update
    timestamps: no record is added, removed or reordered, and no [id],
    [name], [email], [password], creation timestamp or session changes. *)
Theorem PATCH_touches_only_roles
    (session : option Session) (request : Request) (w : World) :
  map fixedPart (db (snd (PATCH session request w)))
  = map fixedPart (db w).
Proof.
  destruct session as [s|], w as [d f c q k]; unfold PATCH; [|reflexivity].
  destruct (isAdmin s); cbn [negb]; [|reflexivity].
  run; repeat step; try reflexivity.
  match goal with
  | H : findById _ _ = Some _ |- _ =>
      apply (fixedPart_replaceById _ _ _ _ H); reflexivity
  end.
Qed.

(** X14. If every stored role is ['user'] or ['admin'], it is still so
    after any [GET], [PATCH] or [DELETE], whatever the caller and the
    request: no handler stores a role outside the two values. *)
Theorem handlers_keep_roles_known
    (session : option Session) (request : Request) (w : World) :
  Forall hasKnownRole (db w) ->
  Forall hasKnownRole (db (snd (GET session request w)))
  /\ Forall hasKnownRole (db (snd (PATCH session request w)))
  /\ Forall hasKnownRole (db (snd (DELETE session request w))).
Proof.
  intros H; repeat split.
  - destruct session as [s|], w as [d f c q k]; unfold GET; [|exact H].
    destruct (isAdmin s); cbn [negb]; [|exact H].
    run; repeat step; exact H.
  - destruct session as [s|], w as [d f c q k]; unfold PATCH; [|exact H].
    destruct (isAdmin s); cbn [negb]; [|exact H].
    run; repeat step; try exact H.
    apply Forall_replaceById; [exact H|].
    match goal with
    | Hi : includes _ (VStr _) = true |- _ =>
        apply includes_role in Hi as [[= ->]|[= ->]]
    end; [left | right]; reflexivity.
  - destruct session as [s|], w as [d f c q k]; unfold DELETE; [|exact H].
    destruct (isAdmin s); cbn [negb]; [|exact H].
    run; repeat step; try exact H.
    now apply Forall_removeById.
Qed.

Lemma handlers_keep_roles_known_witness :
  Forall hasKnownRole (db sampleWorld)
  /\ Forall hasKnownRole
       (db (snd (PATCH (Some adminCaller)
                   (withBody (VObj [(lit "userId", VStr (lit "u1"));
                                    (lit "role", VStr (lit "admin"))]))
                   sampleWorld))).
Proof.
  assert (H : Forall hasKnownRole (db sampleWorld)).
  { unfold sampleWorld; cbn [db].
    apply Forall_cons; [right; reflexivity|].
    apply Forall_cons; [left; reflexivity|].
    apply Forall_cons; [left; reflexivity|].
    apply Forall_nil. }
  split; [exact H|].
  exact (proj1 (proj2 (handlers_keep_roles_known (Some adminCaller)
                         (withBody (VObj [(lit "userId", VStr (lit "u1"));
                                          (lit "role", VStr (lit "admin"))]))
                         sampleWorld H))).
Defined.

End RecordFacts.

(** ** Deleting, and what reaches the store *)

Section DeleteFacts.

Import AdminUsers Validation.

(** The two outcomes of a [DELETE] that passes the checks of the
    handler, on a working store. *)
Lemma DELETE_outcome (session : Session) (request : Request) (w : World)
    (uid : jsstring) :
  su_role (user session) = lit "admin" ->
  get (searchParams request) (lit "id") = Some uid ->
  uid <> [] ->
  uid <> su_id (user session) ->
  fault w = None ->
  DELETE (Some session) request w
  = match findById uid (db w) with
    | Some _ =>
        (Normal (successResponse
                   (VObj [(lit "message",
                           VStr (lit "User deleted successfully"))])
                   None),
         mkWorld (removeById uid (db w)) None (clock w)
                 (queries w ++ [QDelete uid]) (console w))
    | None =>
        (Normal (errorResponse (lit "User not found") (Some 404)),
         mkWorld (db w) None (clock w) (queries w ++ [QDelete uid])
                 (console w ++ [(lit "Error deleting user:", recordNotFound)]))
    end.
Proof.
  intros Hadmin Hget Hne Hother Hfault.
  unfold DELETE; rewrite (isAdmin_true _ Hadmin), Hget; cbn [negb].
  destruct uid as [|c uid]; [contradiction|].
  apply streq_neq in Hother.
  destruct w as [d f k q l]; simpl in Hfault; subst f.
  run; cbn [absent orElse]; rewrite Hother; run.
  destruct (findById (c :: uid) d); reflexivity.
Qed.

(** X15. A [DELETE] by an admin on a working store, naming an existing
    record other than the caller's, answers 200 and removes one record
    with that id: the store holds one record fewer and the records with
    other ids are all kept, in order. *)
Theorem DELETE_removes_the_target
    (session : Session) (request : Request) (w : World)
    (uid : jsstring) (u : User) :
  su_role (user session) = lit "admin" ->
  get (searchParams request) (lit "id") = Some uid ->
  uid <> [] ->
  uid <> su_id (user session) ->
  fault w = None ->
  findById uid (db w) = Some u ->
  exists w',
    DELETE (Some session) request w
    = (Normal (successResponse
                 (VObj [(lit "message",
                         VStr (lit "User deleted successfully"))])
                 None), w')
    /\ db w' = removeById uid (db w)
    /\ S (List.length (db w')) = List.length (db w)
    /\ filter (fun x => negb (streq (id x) uid)) (db w')
       = filter (fun x => negb (streq (id x) uid)) (db w)
    /\ console w' = console w.
Proof.
  intros Hadmin Hget Hne Hother Hfault Hfind.
  rewrite (DELETE_outcome session request w uid) by assumption.
  rewrite Hfind; eexists; split; [reflexivity|]; cbn [db console].
  repeat split.
  - apply (length_removeById _ _ _ Hfind).
  - apply others_removeById.
Qed.

Lemma DELETE_removes_the_target_witness :
  su_role (user adminCaller) = lit "admin"
  /\ lit "u2" <> []
  /\ lit "u2" <> su_id (user adminCaller)
  /\ fault sampleWorld = None
  /\ findById (lit "u2") (db sampleWorld) = Some bob
  /\ exists w',
       DELETE (Some adminCaller) (noBody [(lit "id", lit "u2")]) sampleWorld
       = (Normal (successResponse
                    (VObj [(lit "message",
                            VStr (lit "User deleted successfully"))])
                    None), w')
       /\ db w' = removeById (lit "u2") (db sampleWorld)
       /\ S (List.length (db w')) = List.length (db sampleWorld)
       /\ filter (fun x => negb (streq (id x) (lit "u2"))) (db w')
          = filter (fun x => negb (streq (id x) (lit "u2"))) (db sampleWorld)
       /\ console w' = console sampleWorld.
Proof.
  assert (Hne : lit "u2" <> []) by discriminate.
  assert (Hother : lit "u2" <> su_id (user adminCaller)) by discriminate.
  split; [reflexivity|]; split; [exact Hne|]; split; [exact Hother|].
  split; [reflexivity|]; split; [reflexivity|].
  exact (DELETE_removes_the_target adminCaller
           (noBody [(lit "id", lit "u2")]) sampleWorld (lit "u2") bob
           eq_refl eq_refl Hne Hother eq_refl eq_refl).
Defined.

(** X16. No [DELETE] request removes or changes the caller's own
    record: whatever the [id] parameter and the state of the store,
    looking up the caller's identifier gives the same record before and
    after. *)
Theorem DELETE_spares_the_caller
    (session : Session) (request : Request) (w : World) :
  findById (su_id (user session))
           (db (snd (DELETE (Some session) request w)))
  = findById (su_id (user session)) (db w).
Proof.
  destruct w as [d f c q k]; unfold DELETE.
  destruct (isAdmin session); cbn [negb]; [|reflexivity].
  run; repeat step; try reflexivity.
  match goal with
  | H : streq _ _ = false |- _ => apply (findById_removeById_other _ _ _ H)
  end.
Qed.

(** X17. With unique record ids and a working store, a [DELETE] that
    passes the handler's checks answers 404 when repeated, whether the
    first one removed the record or found none. *)
Theorem DELETE_again_answers_404
    (session : Session) (request : Request) (w : World) (uid : jsstring) :
  su_role (user session) = lit "admin" ->
  get (searchParams request) (lit "id") = Some uid ->
  uid <> [] ->
  uid <> su_id (user session) ->
  fault w = None ->
  NoDup (map id (db w)) ->
  fst (DELETE (Some session) request
         (snd (DELETE (Some session) request w)))
  = Normal (errorResponse (lit "User not found") (Some 404)).
Proof.
  intros Hadmin Hget Hne Hother Hfault Hnodup.
  rewrite (DELETE_outcome session request w uid) by assumption.
  destruct (findById uid (db w)) eqn:Hfind; cbn [snd];
    rewrite (DELETE_outcome session request _ uid) by (try assumption;
                                                       reflexivity);
    cbn [db].
  - now rewrite findById_removeById_same.
  - now rewrite Hfind.
Qed.

Lemma DELETE_again_answers_404_witness :
  su_role (user adminCaller) = lit "admin"
  /\ lit "u1" <> []
  /\ lit "u1" <> su_id (user adminCaller)
  /\ fault sampleWorld = None
  /\ NoDup (map id (db sampleWorld))
  /\ fst (DELETE (Some adminCaller) (noBody [(lit "id", lit "u1")])
            (snd (DELETE (Some adminCaller) (noBody [(lit "id", lit "u1")])
                    sampleWorld)))
     = Normal (errorResponse (lit "User not found") (Some 404)).
Proof.
  assert (Hne : lit "u1" <> []) by discriminate.
  assert (Hother : lit "u1" <> su_id (user adminCaller)) by discriminate.
  assert (Hnodup : NoDup (map id (db sampleWorld))).
  { unfold sampleWorld; cbn [db map].
    repeat (apply NoDup_cons;
            [simpl; intros H;
             repeat (destruct H as [H|H]; [discriminate H|]); exact H|]).
    apply NoDup_nil. }
  split; [reflexivity|]; split; [exact Hne|]; split; [exact Hother|].
  split; [reflexivity|]; split; [exact Hnodup|].
  exact (DELETE_again_answers_404 adminCaller
           (noBody [(lit "id", lit "u1")]) sampleWorld (lit "u1")
           eq_refl eq_refl Hne Hother eq_refl Hnodup).
Defined.

(** X18. The store is called only behind the checks.  [PATCH] issues
    at most one call, an [update] whose role is ['user'] or ['admin'] and
    whose [userId] is truthy, and only for an admin caller; [DELETE]
    issues at most one call, a [delete] of the non-empty [id] parameter,
    which is not the caller's own, and only for an admin caller. *)
Theorem store_calls_are_guarded
    (session : option Session) (request : Request) (w : World) :
  (queries (snd (PATCH session request w)) = queries w
   \/ exists s uid r,
        session = Some s
        /\ su_role (user s) = lit "admin"
        /\ truthy uid = true
        /\ (r = lit "user" \/ r = lit "admin")
        /\ queries (snd (PATCH session request w))
           = queries w ++ [QUpdate uid (VStr r)])
  /\ (queries (snd (DELETE session request w)) = queries w
      \/ exists s uid,
           session = Some s
           /\ su_role (user s) = lit "admin"
           /\ get (searchParams request) (lit "id") = Some uid
           /\ uid <> []
           /\ uid <> su_id (user s)
           /\ queries (snd (DELETE session request w))
              = queries w ++ [QDelete uid]).
Proof.
  split.
  - destruct session as [s|], w as [d f c q k]; unfold PATCH;
      [|left; reflexivity].
    destruct (isAdmin s) eqn:Hadmin; cbn [negb]; [|left; reflexivity].
    apply streq_eq in Hadmin.
    run; repeat step; try (left; reflexivity);
      repeat match goal with
             | H : getProp _ _ = _ |- _ => rewrite H in *; clear H
             end.
    all: match goal with
      | Hi : includes _ _ = true, Hv : validateRequired _ = Normal _ |- _ =>
          apply includes_role in Hi as [Hi|Hi]; try discriminate Hi;
          apply validateRequired_pair in Hv as [Hv _];
          try (vm_compute in Hv; discriminate Hv);
          apply isMissing_truthy in Hv;
          first [injection Hi as Hi; subst | rewrite Hi in *];
          right; exists s; eexists; eexists;
          (split; [reflexivity|]); (split; [exact Hadmin|]);
          (split; [exact Hv|]);
          (split; [|reflexivity]); auto
      end.
  - destruct session as [s|], w as [d f c q k]; unfold DELETE;
      [|left; reflexivity].
    destruct (isAdmin s) eqn:Hadmin; cbn [negb]; [|left; reflexivity].
    apply streq_eq in Hadmin.
    destruct (get (searchParams request) (lit "id")) as [[|c0 uid]|] eqn:Hget;
      run; cbn [absent orElse]; try (left; reflexivity).
    destruct (streq (c0 :: uid) (su_id (user s))) eqn:Hother; run;
      [left; reflexivity|].
    apply streq_neq in Hother.
    repeat step;
      (right; exists s, (c0 :: uid);
       repeat split; try assumption; try discriminate).
Qed.

End DeleteFacts.

(** ** Listing: defaults, order and effects *)

Section ListingFacts.

Import AdminUsers.

(** X19. [GET] only reads: whatever the caller and the request, the
    records, the state of the store and the clock are as before, and the
    store is either not called or asked one [findMany] and one [count]
    with the filter, offset and limit of the request. *)
Theorem GET_is_read_only
    (session : option Session) (request : Request) (w : World) :
  db (snd (GET session request w)) = db w
  /\ fault (snd (GET session request w)) = fault w
  /\ clock (snd (GET session request w)) = clock w
  /\ (queries (snd (GET session request w)) = queries w
      \/ queries (snd (GET session request w))
         = queries w
           ++ [QFindMany (whereFor (searchOf request)) (skipOf request)
                         (limitOf request);
               QCount (whereFor (searchOf request))]).
Proof.
  destruct session as [s|], w as [d f c q k]; unfold GET;
    [|repeat split; now left].
  destruct (isAdmin s); cbn [negb]; [|repeat split; now left].
  run; repeat step; repeat split;
    right; cbn [queries]; rewrite <- app_assoc; reflexivity.
Qed.

Lemma orElse_absent (p : option jsstring) (dflt : jsstring) :
  absent p = true -> orElse p dflt = dflt.
Proof. destruct p as [[|c r]|]; try discriminate; reflexivity. Qed.

Lemma filter_all {A} (l : list A) : filter (fun _ => true) l = l.
Proof. induction l as [|x l IH]; simpl; [reflexivity | now rewrite IH]. Qed.

(** X20. Without [page], [limit] and [search] parameters (absent or
    empty), an admin caller on a working store gets page 1 with limit
    10: the ten most recent records at most, [total] counting every
    stored record. *)
Theorem GET_defaults
    (session : Session) (request : Request) (w : World) :
  su_role (user session) = lit "admin" ->
  fault w = None ->
  absent (get (searchParams request) (lit "page")) = true ->
  absent (get (searchParams request) (lit "limit")) = true ->
  absent (get (searchParams request) (lit "search")) = true ->
  exists w',
    GET (Some session) request w
    = (Normal
         (successResponse
            (VObj
               [(lit "users",
                 VArr (map (project listSelect)
                         (firstn 10 (orderByCreatedAtDesc (db w)))));
                (lit "pagination",
                 VObj
                   [(lit "page", VNum (Fin 1));
                    (lit "limit", VNum (Fin 10));
                    (lit "total",
                     VNum (Fin (Z.of_nat (List.length (db w)))));
                    (lit "totalPages",
                     VNum (Fin (- ((- Z.of_nat (List.length (db w)))
                                   / 10))))])])
            None), w').
Proof.
  intros Hadmin Hfault Hp Hl Hs.
  assert (Epage : pageOf request = Fin 1)
    by (unfold pageOf; now rewrite orElse_absent).
  assert (Elimit : limitOf request = Fin 10)
    by (unfold limitOf; now rewrite orElse_absent).
  assert (Esearch : searchOf request = [])
    by (unfold searchOf; now rewrite orElse_absent).
  destruct (GET_page session request w 1 10 Hadmin Hfault Epage Elimit)
    as (w' & E & _); [lia | lia | unfold maxSafeInteger; lia |].
  exists w'; rewrite E, Esearch; unfold rowsFor; cbn [whereFor truthy matches].
  rewrite filter_all; reflexivity.
Qed.

Lemma GET_defaults_witness :
  su_role (user adminCaller) = lit "admin"
  /\ fault sampleWorld = None
  /\ absent (get (searchParams (noBody [])) (lit "page")) = true
  /\ absent (get (searchParams (noBody [])) (lit "limit")) = true
  /\ absent (get (searchParams (noBody [])) (lit "search")) = true
  /\ exists w',
       GET (Some adminCaller) (noBody []) sampleWorld
       = (Normal
            (successResponse
               (VObj
                  [(lit "users",
                    VArr (map (project listSelect)
                            (firstn 10
                               (orderByCreatedAtDesc (db sampleWorld)))));
                   (lit "pagination",
                    VObj
                      [(lit "page", VNum (Fin 1));
                       (lit "limit", VNum (Fin 10));
                       (lit "total",
                        VNum (Fin (Z.of_nat
                                     (List.length (db sampleWorld)))));
                       (lit "totalPages",
                        VNum (Fin (- ((- Z.of_nat
                                           (List.length (db sampleWorld)))
                                      / 10))))])])
               None), w').
Proof.
  split; [reflexivity|]; split; [reflexivity|]; split; [reflexivity|].
  split; [reflexivity|]; split; [reflexivity|].
  exact (GET_defaults adminCaller (noBody []) sampleWorld
           eq_refl eq_refl eq_refl eq_refl eq_refl).
Defined.

Lemma descending_cons (a : Z) (l : list Z) :
  descending (a :: l) = true
  <-> match l with [] => True | b :: _ => b <= a end
      /\ descending l = true.
Proof.
  destruct l as [|b l]; [simpl; tauto|].
  change (descending (a :: b :: l))
    with ((b <=? a) && descending (b :: l)).
  rewrite andb_true_iff, Z.leb_le; tauto.
Qed.

Lemma descending_app (l1 l2 : list Z) :
  descending (l1 ++ l2) = true ->
  descending l1 = true /\ descending l2 = true.
Proof.
  induction l1 as [|a l1 IH]; [now split|].
  rewrite <- app_comm_cons, descending_cons; intros [Hhd Htl].
  destruct (IH Htl) as [H1 H2]; split; [|assumption].
  apply descending_cons; split; [|assumption].
  destruct l1; [exact I | exact Hhd].
Qed.

Lemma descending_rev_sublist (l a b c : list Z) :
  descending l = true -> rev l = a ++ b ++ c -> descending (rev b) = true.
Proof.
  intros H E; apply (f_equal (@rev Z)) in E.
  rewrite rev_involutive, !rev_app_distr in E; rewrite E in H.
  rewrite <- app_assoc in H.
  now apply descending_app in H as [_ H], H as [H _].
Qed.

Lemma insertDesc_descending (u : User) (l : list User) :
  descending (map createdAt l) = true ->
  descending (map createdAt (insertDesc u l)) = true.
Proof.
  induction l as [|v l IH]; [reflexivity|].
  intros H; cbn [insertDesc].
  destruct (createdAt v <? createdAt u) eqn:E.
  - cbn [map]; apply descending_cons; split; [|exact H].
    apply Z.ltb_lt in E; lia.
  - apply Z.ltb_ge in E; cbn [map] in *.
    apply descending_cons in H as [Hhd Htl].
    apply descending_cons; split; [|now apply IH].
    destruct l as [|x l]; cbn [insertDesc map]; [exact E|].
    destruct (createdAt x <? createdAt u); cbn [map]; assumption.
Qed.

Lemma orderBy_descending (l : list User) :
  descending (map createdAt (orderByCreatedAtDesc l)) = true.
Proof.
  induction l as [|u l IH]; [reflexivity|].
  unfold orderByCreatedAtDesc in *; cbn [fold_right].
  now apply insertDesc_descending.
Qed.

Lemma window_descending (s : nat) (t : Z) (rows : list User) :
  descending (map createdAt rows) = true ->
  descending (map createdAt (window s t rows)) = true.
Proof.
  intros H; rewrite window_map; destruct (0 <=? t).
  - set (l := map createdAt rows) in *.
    rewrite <- (firstn_skipn s l) in H.
    apply descending_app in H as [_ H].
    rewrite <- (firstn_skipn (Z.to_nat t) (skipn s l)) in H.
    now apply descending_app in H as [H _].
  - set (l := map createdAt rows) in *.
    apply (descending_rev_sublist l (firstn s (rev l)) _
             (skipn (Z.to_nat (- t)) (skipn s (rev l))) H).
    now rewrite !firstn_skipn.
Qed.

Lemma createdAtOf_project (u : User) :
  createdAtOf (project listSelect u) = createdAt u.
Proof. reflexivity. Qed.

(** X21. The records of any answer of [GET /api/admin/users] come in
    non-increasing order of creation timestamp, whatever the page, the
    limit and the search. *)
Theorem GET_lists_newest_first
    (session : option Session) (request : Request) (w : World) :
  descending (map createdAtOf (usersOf (GET session request w))) = true.
Proof.
  destruct session as [s|], w as [d f c q k]; unfold GET; [|reflexivity].
  destruct (isAdmin s); cbn [negb]; [|reflexivity].
  run; repeat step; try reflexivity.
  rewrite usersOf_success, map_map.
  rewrite (map_ext _ createdAt) by apply createdAtOf_project.
  apply window_descending, orderBy_descending.
Qed.

End ListingFacts.

(** ** What goes to the server console *)

Section ConsoleFacts.

Import AdminUsers.

Local Ltac logged_or_not :=
  first [ exists []; split; [symmetry; apply app_nil_r | reflexivity]
        | eexists; split; [reflexivity | reflexivity] ].

(** X22. Each handler of [/api/admin/users] writes to the console
    exactly when it answers 404 or 500, and then writes one entry;
    answers 200, 400, 401 and 403 leave the console as it was. *)
Theorem errors_are_logged_once
    (session : option Session) (request : Request) (w : World) :
  Forall
    (fun outcome =>
       exists entries,
         console (snd outcome) = console w ++ entries
         /\ List.length entries
            = match statusOf outcome with
              | Some st => if (st =? 404) || (st =? 500) then 1%nat
                           else 0%nat
              | None => 0%nat
              end)
    [GET session request w; PATCH session request w;
     DELETE session request w].
Proof.
  repeat apply Forall_cons; [| | |apply Forall_nil].
  - destruct session as [s|], w as [d f c q k]; unfold GET;
      [|logged_or_not].
    destruct (isAdmin s); cbn [negb]; [|logged_or_not].
    run; repeat step; logged_or_not.
  - destruct session as [s|], w as [d f c q k]; unfold PATCH;
      [|logged_or_not].
    destruct (isAdmin s); cbn [negb]; [|logged_or_not].
    run; repeat step; logged_or_not.
  - destruct session as [s|], w as [d f c q k]; unfold DELETE;
      [|logged_or_not].
    destruct (isAdmin s); cbn [negb]; [|logged_or_not].
    run; repeat step; logged_or_not.
Qed.

End ConsoleFacts.
